(** * Pixel canvas: a shallow embedding of [src/pixel-canvas.tsx]

    The component keeps five pieces of React state (the canvas grid, the
    selected colour, the drawing flag, the history and the history index) and
    updates them from event handlers.  Each handler is embedded as a function
    on a record of that state; the colour arithmetic is embedded over the
    kernel's binary64 floats, which are the numbers JavaScript computes with;
    the export is embedded over a small model of a 2D canvas bitmap. *)

From Stdlib Require Import ZArith Lia Bool Ascii Floats.
From Stdlib Require String.
From stdpp Require Import list strings.

Open Scope Z_scope.

(** ** JavaScript numbers and strings *)

Module JS.

(** The Number nearest to an integer (round to nearest, ties to even):
    how an integer literal or a parsed integer becomes a double. *)
Definition of_Z (z : Z) : float :=
  SF2Prim (binary_normalize prec emax z 0 false).

(** What [Math.round] can return: an integral Number. *)
Inductive integral : Type :=
| INaN
| IInf (negative : bool)
| INegZero
| IInt (z : Z).

(** [Math.round(x)]: the integer closest to [x], ties towards +infinity;
    [-0] for [x] in [[-0.5, -0]]; NaN, the infinities and the zeros are
    returned as they are.  A finite non-zero double is [(+/-) m * 2^e]
    exactly, so the rounding is computed on integers: [floor (x + 1/2)]. *)
Definition Math_round (x : float) : integral :=
  match Prim2SF x with
  | S754_nan => INaN
  | S754_infinity s => IInf s
  | S754_zero s => if s then INegZero else IInt 0
  | S754_finite s m e =>
      let sm := if s then Z.neg m else Z.pos m in
      let n := if 0 <=? e then sm * 2 ^ e
               else (2 * sm + 2 ^ (- e)) / 2 ^ (- e + 1) in
      if (n =? 0) && s then INegZero else IInt n
  end.

(** [Math.abs]. *)
Definition Math_abs (x : float) : float := PrimFloat.abs x.

(** The [%] operator on Numbers: the remainder has the sign of the dividend
    and is exact ([n - d * trunc (n / d)]). *)
Definition rem (n d : float) : float :=
  match Prim2SF n, Prim2SF d with
  | S754_nan, _ | _, S754_nan => nan
  | S754_infinity _, _ => nan
  | _, S754_zero _ => nan
  | _, S754_infinity _ => n
  | S754_zero _, _ => n
  | S754_finite sn mn en, S754_finite _ md ed =>
      let e := Z.min en ed in
      let r := Z.rem (Z.pos mn * 2 ^ (en - e)) (Z.pos md * 2 ^ (ed - e)) in
      if r =? 0 then (if sn then neg_zero else zero)
      else
        let f := SF2Prim (binary_normalize prec emax r e false) in
        if sn then (- f)%float else f
  end.

(** [Math.max] and [Math.min] of two Numbers: NaN if either is NaN, and
    [+0] counts as larger than [-0]. *)
Definition max2 (a b : float) : float :=
  if is_nan a || is_nan b then nan
  else if (a <? b)%float then b
  else if (b <? a)%float then a
  else if get_sign a then b else a.

Definition min2 (a b : float) : float :=
  if is_nan a || is_nan b then nan
  else if (a <? b)%float then a
  else if (b <? a)%float then b
  else if get_sign a then a else b.

Definition Math_max (a b c : float) : float := max2 (max2 a b) c.
Definition Math_min (a b c : float) : float := min2 (min2 a b) c.

(** Characters. *)
Definition code (c : ascii) : Z := Z.of_N (N_of_ascii c).

Definition is_hex_digit (c : ascii) : bool :=
  let n := code c in
  ((48 <=? n) && (n <=? 57)) || ((65 <=? n) && (n <=? 70))
  || ((97 <=? n) && (n <=? 102)).

Definition hex_value (c : ascii) : Z :=
  let n := code c in
  if n <=? 57 then n - 48 else if n <=? 70 then n - 55 else n - 87.

Definition is_space (c : ascii) : bool :=
  let n := code c in (n =? 32) || ((9 <=? n) && (n <=? 13)).

(** [s.replace("#", "")]: the first ["#"] of [s] is removed. *)
Fixpoint replace_hash (s : string) : string :=
  match s with
  | EmptyString => EmptyString
  | String c s' => if (code c =? 35) then s' else String c (replace_hash s')
  end.

(** [s.substr(start, len)] for non-negative arguments. *)
Definition substr (start len : nat) (s : string) : string :=
  String.substring start len s.

(** [Number.parseInt(s, 16)]: leading white space (ASCII here), an optional
    sign and an optional [0x] are skipped, then the longest run of hex
    digits is read; NaN when there is none. *)
Fixpoint skip_spaces (s : string) : string :=
  match s with
  | String c s' => if is_space c then skip_spaces s' else s
  | EmptyString => EmptyString
  end.

Fixpoint hex_prefix (s : string) (acc : option Z) : option Z :=
  match s with
  | String c s' =>
      if is_hex_digit c
      then hex_prefix s' (Some (16 * default 0 acc + hex_value c))
      else acc
  | EmptyString => acc
  end.

Definition strip_0x (s : string) : string :=
  match s with
  | String c1 (String c2 s') =>
      if (code c1 =? 48) && ((code c2 =? 120) || (code c2 =? 88))
      then s' else s
  | _ => s
  end.

Definition parseInt16 (s : string) : float :=
  let s := skip_spaces s in
  let '(neg, s) :=
    match s with
    | String c s' =>
        if code c =? 45 then (true, s')
        else if code c =? 43 then (false, s') else (false, s)
    | EmptyString => (false, s)
    end in
  match hex_prefix (strip_0x s) None with
  | None => nan
  | Some n => if neg then (- of_Z n)%float else of_Z n
  end.

(** [n.toString(16)] for the value of a [Math.round], and
    [s.padStart(2, "0")]. *)
Definition hex_char (d : Z) : ascii :=
  ascii_of_N (Z.to_N (if d <? 10 then 48 + d else 87 + d)).

Fixpoint hex_digits (fuel : nat) (n : Z) (acc : string) : string :=
  let acc' := String (hex_char (n mod 16)) acc in
  match fuel with
  | O => acc'
  | S fuel' => if n <? 16 then acc' else hex_digits fuel' (n / 16) acc'
  end.

Definition toString16 (n : integral) : string :=
  match n with
  | INaN => "NaN"
  | IInf s => if s then "-Infinity" else "Infinity"
  | INegZero => "0"
  | IInt z =>
      let digits := hex_digits (Z.to_nat (Z.log2 (Z.abs z))) (Z.abs z) "" in
      if z <? 0 then String "-" digits else digits
  end.

Definition padStart2 (s : string) : string :=
  match String.length s with
  | O => "00"
  | S O => String "0" s
  | _ => s
  end.

End JS.

(** ** Colour conversion: the hue slider (lines 329-394) *)

Module Color.
Import JS.

(** The [value] of the hue slider (lines 333-349): the hue of the selected
    colour. *)
Definition colorToHue (selectedColor : string) : integral :=
  let hex := replace_hash selectedColor in
  let r := (parseInt16 (substr 0 2 hex) / 255)%float in
  let g := (parseInt16 (substr 2 2 hex) / 255)%float in
  let b := (parseInt16 (substr 4 2 hex) / 255)%float in
  let max := Math_max r g b in
  let min := Math_min r g b in
  let diff := (max - min)%float in
  let h :=
    if negb (diff =? 0)%float then
      if (max =? r)%float then rem ((g - b) / diff)%float 6%float
      else if (max =? g)%float then ((b - r) / diff + 2)%float
      else ((r - g) / diff + 4)%float
    else 0%float in
  Math_round (h * 60)%float.

(** The [min] and [max] attributes of the hue slider (lines 331-332). *)
Definition hueMin : Z := 0.
Definition hueMax : Z := 360.

(** One sextant test of the slider's [onChange] (lines 360-384):
    [hue >= lo && hue < hi]. *)
Definition sextant (lo hi hue : float) : bool :=
  (lo <=? hue)%float && (hue <? hi)%float.

(** The slider's [onChange] (lines 350-392): [hue] is the integer that
    [Number.parseInt(e.target.value)] read; the result is the string
    handed to [setSelectedColor]. *)
Definition hueToColor (hue : Z) : string :=
  let hue := of_Z hue in
  let c := 1%float in
  let x := (c * (1 - Math_abs (rem (hue / 60) 2 - 1)))%float in
  let m := (0.5 - c / 2)%float in
  let '(r, g, b) :=
    if sextant 0 60 hue then (c, x, 0%float)
    else if sextant 60 120 hue then (x, c, 0%float)
    else if sextant 120 180 hue then (0%float, c, x)
    else if sextant 180 240 hue then (0%float, x, c)
    else if sextant 240 300 hue then (x, 0%float, c)
    else if sextant 300 360 hue then (c, 0%float, x)
    else (0%float, 0%float, 0%float) in
  let r := Math_round ((r + m) * 255)%float in
  let g := Math_round ((g + m) * 255)%float in
  let b := Math_round ((b + m) * 255)%float in
  "#" +:+ padStart2 (toString16 r) +:+ padStart2 (toString16 g)
      +:+ padStart2 (toString16 b).

End Color.


(** ** The pattern of the hex input (line 471) *)

Module Regex.
Import JS.

(** The fragment of regular expressions the component uses: a sequence of
    atoms, each repeated a fixed number of times, anchored at both ends. *)
Inductive atom : Type :=
| Lit (c : ascii)
| Class (ranges : list (ascii * ascii)).

Inductive item : Type :=
| Rep (a : atom) (n : nat).

Definition in_range (c : ascii) (r : ascii * ascii) : bool :=
  (code (fst r) <=? code c) && (code c <=? code (snd r)).

Definition atom_matches (a : atom) (c : ascii) : bool :=
  match a with
  | Lit c' => code c =? code c'
  | Class ranges => existsb (in_range c) ranges
  end.

(** [a{n}] at the head of [s]: what is left of [s] after it. *)
Fixpoint match_rep (a : atom) (n : nat) (s : string) : option string :=
  match n with
  | O => Some s
  | S n' =>
      match s with
      | String c s' => if atom_matches a c then match_rep a n' s' else None
      | EmptyString => None
      end
  end.

Fixpoint match_items (p : list item) (s : string) : option string :=
  match p with
  | [] => Some s
  | Rep a n :: p' =>
      match match_rep a n s with
      | Some s' => match_items p' s'
      | None => None
      end
  end.

(** [/^p$/.test(s)]: without the [m] flag, [$] is the end of the input. *)
Definition test (p : list item) (s : string) : bool :=
  match match_items p s with
  | Some EmptyString => true
  | _ => false
  end.

(** [/^#[0-9A-Fa-f]{6}$/] *)
Definition hex_color : list item :=
  [ Rep (Lit "#") 1;
    Rep (Class [("0", "9"); ("A", "F"); ("a", "f")]%char) 6 ].

End Regex.

(** ** The grid, the history and the handlers *)

Module Canvas.
Import JS Color.

Definition GRID_SIZE : nat := 32.

Record Pixel : Type := { color : string }.

(** [type CanvasState = Pixel[][]] *)
Abbreviation CanvasState := (list (list Pixel)).

Inductive Format : Type := png | jpeg.

(** The component's state, one field per [useState].  A handler reads the
    state of the render it was created in and requests updates with the
    setters; the updates are applied together when the handler ends, so a
    handler is a function from the state before the event to the state after
    it.  No handler changes an array or a pixel in place ([slice], [map] and
    the [JSON] copy build new ones, [push] is on the fresh array), so the
    grids are values here. *)
Record State : Type := {
  canvas : CanvasState;
  selectedColor : string;
  isDrawing : bool;
  history : list CanvasState;
  historyIndex : Z;
  exportFormat : Format;
  exportScale : Z
}.

Definition setCanvas (v : CanvasState) (st : State) : State :=
  {| canvas := v; selectedColor := selectedColor st;
     isDrawing := isDrawing st; history := history st;
     historyIndex := historyIndex st; exportFormat := exportFormat st;
     exportScale := exportScale st |}.

Definition setSelectedColor (v : string) (st : State) : State :=
  {| canvas := canvas st; selectedColor := v;
     isDrawing := isDrawing st; history := history st;
     historyIndex := historyIndex st; exportFormat := exportFormat st;
     exportScale := exportScale st |}.

Definition setIsDrawing (v : bool) (st : State) : State :=
  {| canvas := canvas st; selectedColor := selectedColor st;
     isDrawing := v; history := history st;
     historyIndex := historyIndex st; exportFormat := exportFormat st;
     exportScale := exportScale st |}.

Definition setHistory (v : list CanvasState) (st : State) : State :=
  {| canvas := canvas st; selectedColor := selectedColor st;
     isDrawing := isDrawing st; history := v;
     historyIndex := historyIndex st; exportFormat := exportFormat st;
     exportScale := exportScale st |}.

Definition setHistoryIndex (v : Z) (st : State) : State :=
  {| canvas := canvas st; selectedColor := selectedColor st;
     isDrawing := isDrawing st; history := history st;
     historyIndex := v; exportFormat := exportFormat st;
     exportScale := exportScale st |}.

Definition setExportFormat (v : Format) (st : State) : State :=
  {| canvas := canvas st; selectedColor := selectedColor st;
     isDrawing := isDrawing st; history := history st;
     historyIndex := historyIndex st; exportFormat := v;
     exportScale := exportScale st |}.

Definition setExportScale (v : Z) (st : State) : State :=
  {| canvas := canvas st; selectedColor := selectedColor st;
     isDrawing := isDrawing st; history := history st;
     historyIndex := historyIndex st; exportFormat := exportFormat st;
     exportScale := v |}.

(** [Array(GRID_SIZE).fill(null).map(() =>
      Array(GRID_SIZE).fill(null).map(() => ({ color: "#FFFFFF" })))]
    (lines 36-42 and 125-131). *)
Definition blankCanvas : CanvasState :=
  (fun _ : unit =>
     (fun _ : unit => {| color := "#FFFFFF" |}) <$> replicate GRID_SIZE ())
    <$> replicate GRID_SIZE ().

(** The values the [useState] calls start from (lines 35-49). *)
Definition initial : State :=
  {| canvas := blankCanvas; selectedColor := "#000000"; isDrawing := false;
     history := []; historyIndex := -1; exportFormat := png;
     exportScale := 10 |}.

(** The mount effect (lines 52-55). *)
Definition initHistory (st : State) : State :=
  setHistoryIndex 0 (setHistory [canvas st] st).

(** The state the user first acts on. *)
Definition mounted : State := initHistory initial.

(** [a[i]] for an integer [i]: [undefined] out of range. *)
Definition at_index {A : Type} (l : list A) (i : Z) : option A :=
  if i <? 0 then None else l !! Z.to_nat i.

(** [a.slice(0, end)]: a negative [end] counts from the end of [a], and
    the result stops at the end of [a]. *)
Definition slice0 {A : Type} (l : list A) (end_ : Z) : list A :=
  let len := Z.of_nat (length l) in
  let k := if end_ <? 0 then Z.max (len + end_) 0 else Z.min end_ len in
  take (Z.to_nat k) l.

(** A handler either returns or throws; in both cases the state updates it
    had requested by then are applied. *)
Inductive outcome : Type :=
| Returned (st : State)
| Threw (st : State).

Definition state_of (o : outcome) : State :=
  match o with Returned st | Threw st => st end.

(** [JSON.parse(JSON.stringify(v))]: a deep copy of a grid, equal to it
    cell for cell; on [undefined], [JSON.stringify] gives [undefined] and
    [JSON.parse] throws a [SyntaxError]. *)
Definition jsonCopy (v : option CanvasState) : option CanvasState := v.

(** [saveToHistory] (lines 57-65). *)
Definition saveToHistory (newCanvas : CanvasState) (st : State) : State :=
  let newHistory := slice0 (history st) (historyIndex st + 1) in
  let newHistory := newHistory ++ [newCanvas] in
  setHistoryIndex (Z.of_nat (length newHistory) - 1)
    (setHistory newHistory st).

(** [undo] (lines 67-73). *)
Definition undo (st : State) : outcome :=
  if historyIndex st >? 0 then
    let newIndex := historyIndex st - 1 in
    let st1 := setHistoryIndex newIndex st in
    match jsonCopy (at_index (history st) newIndex) with
    | Some g => Returned (setCanvas g st1)
    | None => Threw st1
    end
  else Returned st.

(** [redo] (lines 75-81). *)
Definition redo (st : State) : outcome :=
  if historyIndex st <? Z.of_nat (length (history st)) - 1 then
    let newIndex := historyIndex st + 1 in
    let st1 := setHistoryIndex newIndex st in
    match jsonCopy (at_index (history st) newIndex) with
    | Some g => Returned (setCanvas g st1)
    | None => Threw st1
    end
  else Returned st.

(** The [disabled] attributes of the two buttons (lines 215 and 221). *)
Definition undoDisabled (st : State) : bool := historyIndex st <=? 0.

Definition redoDisabled (st : State) : bool :=
  historyIndex st >=? Z.of_nat (length (history st)) - 1.

(** The grid [drawPixel] builds (lines 102-104). *)
Definition paint (canvas : CanvasState) (row col : Z) (selectedColor : string)
  : CanvasState :=
  imap (fun rowIndex r =>
          imap (fun colIndex pixel =>
                  if (Z.of_nat rowIndex =? row) && (Z.of_nat colIndex =? col)
                  then {| color := selectedColor |} else pixel) r) canvas.

(** [drawPixel] (lines 101-107). *)
Definition drawPixel (row col : Z) (st : State) : State :=
  let newCanvas := paint (canvas st) row col (selectedColor st) in
  saveToHistory newCanvas (setCanvas newCanvas st).

(** The mouse handlers (lines 109-122). *)
Definition handleMouseDown (row col : Z) (st : State) : State :=
  drawPixel row col (setIsDrawing true st).

Definition handleMouseEnter (row col : Z) (st : State) : State :=
  if isDrawing st then drawPixel row col st else st.

Definition handleMouseUp (st : State) : State := setIsDrawing false st.

(** [clearCanvas] (lines 124-134). *)
Definition clearCanvas (st : State) : State :=
  let newCanvas := blankCanvas in
  saveToHistory newCanvas (setCanvas newCanvas st).

(** The keyboard shortcuts (lines 85-95). *)
Definition handleKeyDown (ctrlKey metaKey shiftKey : bool) (key : string)
    (st : State) : outcome :=
  if ctrlKey || metaKey then
    if bool_decide (key = "z") && negb shiftKey then undo st
    else if bool_decide (key = "y") || (bool_decide (key = "z") && shiftKey)
         then redo st
         else Returned st
  else Returned st.

(** The hue slider's [onChange] (lines 350-392). *)
Definition hueOnChange (hue : Z) (st : State) : State :=
  setSelectedColor (hueToColor hue) st.

(** The brightness slider's [onChange] (lines 413-437). *)
Definition brightnessOnChange (brightness : Z) (st : State) : State :=
  let brightness := of_Z brightness in
  let hex := replace_hash (selectedColor st) in
  let r := parseInt16 (substr 0 2 hex) in
  let g := parseInt16 (substr 2 2 hex) in
  let b := parseInt16 (substr 4 2 hex) in
  let '(newR, newG, newB) :=
    if (brightness <? 50)%float then
      let factor := (brightness / 50)%float in
      (Math_round (r * factor)%float, Math_round (g * factor)%float,
       Math_round (b * factor)%float)
    else
      let factor := ((brightness - 50) / 50)%float in
      (Math_round (r + (255 - r) * factor)%float,
       Math_round (g + (255 - g) * factor)%float,
       Math_round (b + (255 - b) * factor)%float) in
  let newHex :=
    "#" +:+ padStart2 (toString16 newR) +:+ padStart2 (toString16 newG)
        +:+ padStart2 (toString16 newB) in
  setSelectedColor newHex st.

(** The hex input's [onChange] (lines 469-474). *)
Definition hexOnChange (value : string) (st : State) : State :=
  if Regex.test Regex.hex_color value then setSelectedColor value st else st.

(** What the user and the host can do to the mounted component. *)
Inductive Event : Type :=
| MouseDown (row col : Z)
| MouseEnter (row col : Z)
| MouseUp
| MouseLeave
| KeyDown (ctrlKey metaKey shiftKey : bool) (key : string)
| UndoClick
| RedoClick
| ClearClick
| FormatClick (f : Format)
| ScaleChange (scale : Z)
| HueChange (hue : Z)
| BrightnessChange (brightness : Z)
| PresetClick (color : string)
| HexChange (value : string).

Definition handle (e : Event) (st : State) : outcome :=
  match e with
  | MouseDown row col => Returned (handleMouseDown row col st)
  | MouseEnter row col => Returned (handleMouseEnter row col st)
  | MouseUp | MouseLeave => Returned (handleMouseUp st)
  | KeyDown c m s key => handleKeyDown c m s key st
  | UndoClick => undo st
  | RedoClick => redo st
  | ClearClick => Returned (clearCanvas st)
  | FormatClick f => Returned (setExportFormat f st)
  | ScaleChange scale => Returned (setExportScale scale st)
  | HueChange hue => Returned (hueOnChange hue st)
  | BrightnessChange b => Returned (brightnessOnChange b st)
  | PresetClick c => Returned (setSelectedColor c st)
  | HexChange value => Returned (hexOnChange value st)
  end.

(** The states the component can be in: the mounted one, and every state
    an event leads to from one of them. *)
Inductive reachable : State -> Prop :=
| reachable_mounted : reachable mounted
| reachable_step (e : Event) (st : State) :
    reachable st -> reachable (state_of (handle e st)).

(** Reading a cell: [canvas[row][col].color]. *)
Definition getCell (g : CanvasState) (row col : nat) : option string :=
  r ← g !! row; p ← r !! col; Some (color p).

(** A grid of [n] rows of [n] cells. *)
Definition square (n : nat) (g : CanvasState) : Prop :=
  length g = n /\ Forall (fun r => length r = n) g.

End Canvas.

(** ** The export (lines 136-165) *)

Module Raster.
Import Canvas.

(** A canvas element with its 2D context: the size, the fill style, and
    the bitmap, a colour per pixel ([None] where nothing was drawn:
    transparent).  All fills here are opaque and on integer coordinates,
    so a pixel is either untouched or holds the last colour filled over
    it. *)
Record Canvas2D : Type := {
  width : Z;
  height : Z;
  fillStyle : string;
  bitmap : Z -> Z -> option string
}.

(** [document.createElement("canvas")]: 300 by 150, transparent. *)
Definition createCanvas : Canvas2D :=
  {| width := 300; height := 150; fillStyle := "#000000";
     bitmap := fun _ _ => None |}.

(** Assigning [width] or [height] clears the bitmap and resets the
    context. *)
Definition set_width (w : Z) (cv : Canvas2D) : Canvas2D :=
  {| width := w; height := height cv; fillStyle := "#000000";
     bitmap := fun _ _ => None |}.

Definition set_height (h : Z) (cv : Canvas2D) : Canvas2D :=
  {| width := width cv; height := h; fillStyle := "#000000";
     bitmap := fun _ _ => None |}.

Definition set_fillStyle (s : string) (cv : Canvas2D) : Canvas2D :=
  {| width := width cv; height := height cv; fillStyle := s;
     bitmap := bitmap cv |}.

Definition inside (cv : Canvas2D) (x y : Z) : bool :=
  (0 <=? x) && (x <? width cv) && (0 <=? y) && (y <? height cv).

(** [ctx.fillRect(x, y, w, h)]: the pixels of the canvas with
    [x <= px < x + w] and [y <= py < y + h] take the fill style. *)
Definition fillRect (x y w h : Z) (cv : Canvas2D) : Canvas2D :=
  {| width := width cv; height := height cv; fillStyle := fillStyle cv;
     bitmap := fun px py =>
       if inside cv px py && (x <=? px) && (px <? x + w)
          && (y <=? py) && (py <? y + h)
       then Some (fillStyle cv) else bitmap cv px py |}.

(** [a.forEach((x, i) => ...)], threading the canvas through the calls. *)
Fixpoint forEach_from {A T : Type} (f : A -> nat -> T -> T) (i : nat)
    (l : list A) (s : T) : T :=
  match l with
  | [] => s
  | x :: l' => forEach_from f (S i) l' (f x i s)
  end.

Definition forEach {A T : Type} (f : A -> nat -> T -> T) (l : list A)
    (s : T) : T :=
  forEach_from f 0 l s.

(** The body of the inner loop (lines 153-154). *)
Definition fillCell (pixelSize : Z) (rowIndex : nat) (pixel : Pixel)
    (colIndex : nat) (cv : Canvas2D) : Canvas2D :=
  fillRect (Z.of_nat colIndex * pixelSize) (Z.of_nat rowIndex * pixelSize)
    pixelSize pixelSize (set_fillStyle (color pixel) cv).

(** The body of the outer loop (lines 152-155). *)
Definition fillRow (pixelSize : Z) (row : list Pixel) (rowIndex : nat)
    (cv : Canvas2D) : Canvas2D :=
  forEach (fillCell pixelSize rowIndex) row cv.

(** [downloadImage] up to the bitmap it hands to [toDataURL] (lines
    136-156); [None] when there is no 2D context (line 139). *)
Definition downloadImage (has_ctx : bool) (format : Format) (scale : Z)
    (canvas : CanvasState) : option Canvas2D :=
  if negb has_ctx then None
  else
    let pixelSize := scale in
    let cv := set_width (Z.of_nat GRID_SIZE * pixelSize) createCanvas in
    let cv := set_height (Z.of_nat GRID_SIZE * pixelSize) cv in
    let cv :=
      match format with
      | jpeg => fillRect 0 0 (width cv) (height cv)
                  (set_fillStyle "#FFFFFF" cv)
      | png => cv
      end in
    Some (forEach (fillRow pixelSize) canvas cv).

End Raster.

Import JS Color Regex Canvas Raster.

(** ** Auxiliary definitions for the statements *)

(** The hue read back from the colour of hue [h] is [h] again. *)
Definition roundtrips (h : Z) : bool :=
  match colorToHue (hueToColor h) with
  | IInt z => z =? h
  | _ => false
  end.

(** The history is in step with the canvas: the index points into the
    history, at a snapshot equal to the grid on display. *)
Definition consistent (st : State) : Prop :=
  0 <= historyIndex st < Z.of_nat (length (history st)) /\
  at_index (history st) (historyIndex st) = Some (canvas st).

(** The grid on display and every snapshot have the side [GRID_SIZE]. *)
Definition well_sized (st : State) : Prop :=
  square GRID_SIZE (canvas st) /\ Forall (square GRID_SIZE) (history st).

(** The strings the pattern describes: ["#"] and six hexadecimal digits. *)
Definition hex_color_string (s : string) : Prop :=
  exists ds : list ascii,
    length ds = 6%nat /\ Forall (fun c => is_hex_digit c = true) ds /\
    s = String "#" (String.string_of_list_ascii ds).

(** The canvas the loops of [downloadImage] start from: of the size of the
    export, transparent for PNG and white for JPEG (lines 142-149). *)
Definition exportCanvas (format : Format) (scale : Z) : Canvas2D :=
  let cv := set_height (Z.of_nat GRID_SIZE * scale)
              (set_width (Z.of_nat GRID_SIZE * scale) createCanvas) in
  match format with
  | jpeg => fillRect 0 0 (width cv) (height cv) (set_fillStyle "#FFFFFF" cv)
  | png => cv
  end.

(** The blank grid with its top left cell painted red. *)
Definition redCornerCanvas : CanvasState := paint blankCanvas 0 0 "#FF0000".

(** [undo] and [redo] repeated [n] times (a key held, a button clicked [n]
    times), each on the state the one before left. *)
Definition undoN (n : nat) (st : State) : State :=
  Nat.iter n (fun s => state_of (undo s)) st.

Definition redoN (n : nat) (st : State) : State :=
  Nat.iter n (fun s => state_of (redo s)) st.

(** The colour string the two sliders build from three rounded channels
    (lines 390 and 435). *)
Definition rgbHex (r g b : integral) : string :=
  "#" +:+ padStart2 (toString16 r) +:+ padStart2 (toString16 g)
      +:+ padStart2 (toString16 b).

(** The three channels of the hue slider's [onChange] before they are
    written in hex (lines 351-388). *)
Definition hueChannels (hue : Z) : integral * integral * integral :=
  let hue := of_Z hue in
  let c := 1%float in
  let x := (c * (1 - Math_abs (rem (hue / 60) 2 - 1)))%float in
  let m := (0.5 - c / 2)%float in
  let '(r, g, b) :=
    if sextant 0 60 hue then (c, x, 0%float)
    else if sextant 60 120 hue then (x, c, 0%float)
    else if sextant 120 180 hue then (0%float, c, x)
    else if sextant 180 240 hue then (0%float, x, c)
    else if sextant 240 300 hue then (x, 0%float, c)
    else if sextant 300 360 hue then (c, 0%float, x)
    else (0%float, 0%float, 0%float) in
  (Math_round ((r + m) * 255)%float, Math_round ((g + m) * 255)%float,
   Math_round ((b + m) * 255)%float).

(** One channel of the brightness slider's [onChange] (lines 414-433), from
    the two hex digits [hh] of the channel. *)
Definition brightChannel (brightness : Z) (hh : string) : integral :=
  let brightness := of_Z brightness in
  let v := parseInt16 hh in
  if (brightness <? 50)%float then Math_round (v * (brightness / 50))%float
  else Math_round (v + (255 - v) * ((brightness - 50) / 50))%float.

(** The colours of the Quick Colors buttons (line 447). *)
Definition PRESETS : list string :=
  ["#000000"; "#FFFFFF"; "#FF0000"; "#00FF00"; "#0000FF"; "#FFFF00";
   "#FF00FF"; "#00FFFF"].

(** The events the rendered controls can send: cells of the grid (lines
    191-204), a hue in [0,360] (lines 331-332), a brightness in [0,100]
    (lines 410-411), a scale in [5,20] (lines 281-282), a preset of the
    list. *)
Definition ui_event (e : Event) : Prop :=
  match e with
  | MouseDown row col | MouseEnter row col =>
      0 <= row < Z.of_nat GRID_SIZE /\ 0 <= col < Z.of_nat GRID_SIZE
  | HueChange hue => hueMin <= hue <= hueMax
  | BrightnessChange brightness => 0 <= brightness <= 100
  | ScaleChange scale => 5 <= scale <= 20
  | PresetClick color => In color PRESETS
  | _ => True
  end.

Inductive ui_reachable : State -> Prop :=
| ui_reachable_mounted : ui_reachable mounted
| ui_reachable_step (e : Event) (st : State) :
    ui_reachable st -> ui_event e -> ui_reachable (state_of (handle e st)).

(** The hexadecimal digits, and tests used to check finitely many cases by
    computation. *)
Definition hex_chars : list ascii :=
  String.list_ascii_of_string "0123456789ABCDEFabcdef".

Definition is_byte (n : integral) : bool :=
  match n with
  | IInt v => (0 <=? v) && (v <=? 255)
  | _ => false
  end.

Definition two_hex_digits (s : string) : bool :=
  match s with
  | String x (String y EmptyString) => is_hex_digit x && is_hex_digit y
  | _ => false
  end.

Definition integral_eqb (a b : integral) : bool :=
  match a, b with
  | INaN, INaN | INegZero, INegZero => true
  | IInf s, IInf s' => Bool.eqb s s'
  | IInt x, IInt y => x =? y
  | _, _ => false
  end.

Definition Zrange (lo : Z) (n : nat) : list Z :=
  map (fun i => lo + Z.of_nat i) (seq 0 n).

(** A run of hover events over the cells [cells], in order. *)
Definition hovers (cells : list (Z * Z)) (st : State) : State :=
  foldl (fun s rc => handleMouseEnter (fst rc) (snd rc) s) st cells.

(** ** The hue slider *)

(** C1 (defect of the code): on the preset colour [#FF00FF], whose largest
    channel is red and whose green is below its blue, [colorToHue] returns
    -60, which is not in [0,360): the [%] of JavaScript keeps the sign of the
    dividend, so [((g - b) / diff) % 6] stays negative instead of wrapping to
    300 as [mod 6] would. *)
Theorem colorToHue_magenta_negative :
  colorToHue "#FF00FF" = IInt (-60) /\
  ~ (exists z : Z, colorToHue "#FF00FF" = IInt z /\ 0 <= z < 360).
Proof.
  assert (H : colorToHue "#FF00FF" = IInt (-60)) by (vm_compute; reflexivity).
  split; [exact H|].
  intros (z & Hz & Hr). rewrite H in Hz. injection Hz as <-. lia.
Qed.

(** Checking a property of the integers [lo, lo + n) one by one. *)
Lemma forallb_seqZ (P : Z -> bool) (n : nat) (lo : Z) :
  forallb P (map (fun i => lo + Z.of_nat i) (seq 0 n)) = true ->
  forall h, lo <= h < lo + Z.of_nat n -> P h = true.
Proof.
  intros Hall h Hh. rewrite forallb_forall in Hall. apply Hall.
  apply in_map_iff. exists (Z.to_nat (h - lo)). split; [lia|].
  apply in_seq. lia.
Qed.

(** Below 300 degrees the hue does come back from the colour. *)
Lemma roundtrip_below_300 (h : Z) :
  0 <= h < 300 -> colorToHue (hueToColor h) = IInt h.
Proof.
  intros Hh.
  assert (Hr : roundtrips h = true).
  { apply (forallb_seqZ roundtrips 300 0); [vm_compute; reflexivity | lia]. }
  unfold roundtrips in Hr. destruct (colorToHue (hueToColor h)); try discriminate.
  f_equal. lia.
Qed.

(** From 300 degrees on it comes back 360 too low. *)
Lemma roundtrip_from_300 (h : Z) :
  300 <= h < 360 -> colorToHue (hueToColor h) = IInt (h - 360).
Proof.
  intros Hh.
  pose (P := fun h => match colorToHue (hueToColor h) with
                      | IInt z => z =? h - 360 | _ => false end).
  assert (Hr : P h = true).
  { apply (forallb_seqZ P 60 300); [vm_compute; reflexivity | lia]. }
  unfold P in Hr. destruct (colorToHue (hueToColor h)); try discriminate.
  f_equal. lia.
Qed.

(** C3 (defect of the code, the same as C1): the hue 330 does not come back.
    [hueToColor 330] is [#ff0080]; [colorToHue] reads -30 from it, not 330;
    and [hueToColor (-30)] is [#000000], not [#ff0080]. *)
Theorem hue_roundtrip_fails_at_330 :
  hueToColor 330 = "#ff0080" /\
  colorToHue (hueToColor 330) = IInt (-30) /\
  hueToColor (-30) = "#000000" /\
  hueToColor (-30) <> hueToColor 330.
Proof.
  repeat split; try (vm_compute; reflexivity).
  vm_compute. discriminate.
Qed.

(** C9: at 360, the [max] of the slider, none of the six sextant tests of
    [hueToColor] holds, and the colour is [#000000]; at 0 it is red. *)
Theorem hueToColor_360_black :
  hueMax = 360 /\
  sextant 0 60 (of_Z 360) = false /\
  sextant 60 120 (of_Z 360) = false /\
  sextant 120 180 (of_Z 360) = false /\
  sextant 180 240 (of_Z 360) = false /\
  sextant 240 300 (of_Z 360) = false /\
  sextant 300 360 (of_Z 360) = false /\
  hueToColor hueMax = "#000000" /\
  hueToColor 0 = "#ff0000" /\
  hueToColor hueMax <> hueToColor 0.
Proof.
  repeat split; try (vm_compute; reflexivity).
  vm_compute. discriminate.
Qed.

(** ** The history *)

Section History.

Context {A : Type}.
Implicit Types l : list A.

Lemma slice0_take l (k : nat) : slice0 l (Z.of_nat k) = take k l.
Proof.
  unfold slice0. destruct (Z.ltb_spec (Z.of_nat k) 0) as [?|_]; [lia|].
  destruct (Nat.le_gt_cases k (length l)) as [Hle|Hgt].
  - rewrite Z.min_l by lia. by rewrite Nat2Z.id.
  - rewrite Z.min_r by lia. rewrite Nat2Z.id.
    by rewrite !take_ge by lia.
Qed.

Lemma at_index_nat l (k : nat) : at_index l (Z.of_nat k) = l !! k.
Proof.
  unfold at_index. destruct (Z.ltb_spec (Z.of_nat k) 0); [lia|].
  by rewrite Nat2Z.id.
Qed.

Lemma at_index_Some l (i : Z) (x : A) :
  at_index l i = Some x -> 0 <= i < Z.of_nat (length l).
Proof.
  unfold at_index. destruct (Z.ltb_spec i 0) as [?|Hi]; [discriminate|].
  intros Hx%lookup_lt_Some. lia.
Qed.

End History.

Lemma saveToHistory_history (g : CanvasState) (st : State) :
  history (saveToHistory g st)
  = slice0 (history st) (historyIndex st + 1) ++ [g].
Proof. reflexivity. Qed.

Lemma saveToHistory_index (g : CanvasState) (st : State) :
  historyIndex (saveToHistory g st)
  = Z.of_nat (length (history (saveToHistory g st))) - 1.
Proof. reflexivity. Qed.

Lemma saveToHistory_last (g : CanvasState) (st : State) :
  at_index (history (saveToHistory g st)) (historyIndex (saveToHistory g st))
  = Some g.
Proof.
  rewrite saveToHistory_index, saveToHistory_history.
  set (p := slice0 _ _). rewrite length_app. simpl.
  replace (Z.of_nat (length p + 1) - 1) with (Z.of_nat (length p)) by lia.
  rewrite at_index_nat. by rewrite list_lookup_middle.
Qed.

(** A commit leaves the history in step with the grid it stored. *)
Lemma saveToHistory_consistent (g : CanvasState) (st : State) :
  canvas st = g -> consistent (saveToHistory g st).
Proof.
  intros Hg. split.
  - rewrite saveToHistory_index, saveToHistory_history, length_app. simpl. lia.
  - rewrite saveToHistory_last. by rewrite <- Hg.
Qed.

(** With the history in step, [undo] and [redo] return. *)
Lemma undo_returns (st : State) :
  consistent st -> 0 < historyIndex st ->
  exists g, at_index (history st) (historyIndex st - 1) = Some g /\
            undo st = Returned (setCanvas g (setHistoryIndex (historyIndex st - 1) st)).
Proof.
  intros [Hi _] Hpos. unfold undo, jsonCopy.
  destruct (Z.gtb_spec (historyIndex st) 0); [|lia].
  destruct (at_index (history st) (historyIndex st - 1)) as [g|] eqn:Hg; [eauto|].
  exfalso. unfold at_index in Hg.
  destruct (Z.ltb_spec (historyIndex st - 1) 0); [lia|].
  apply lookup_ge_None in Hg. lia.
Qed.

Lemma redo_returns (st : State) :
  0 <= historyIndex st ->
  historyIndex st < Z.of_nat (length (history st)) - 1 ->
  exists g, at_index (history st) (historyIndex st + 1) = Some g /\
            redo st = Returned (setCanvas g (setHistoryIndex (historyIndex st + 1) st)).
Proof.
  intros Hi Hlt. unfold redo, jsonCopy.
  destruct (Z.ltb_spec (historyIndex st) (Z.of_nat (length (history st)) - 1)); [|lia].
  destruct (at_index (history st) (historyIndex st + 1)) as [g|] eqn:Hg; [eauto|].
  exfalso. unfold at_index in Hg.
  destruct (Z.ltb_spec (historyIndex st + 1) 0); [lia|].
  apply lookup_ge_None in Hg. lia.
Qed.

Lemma undo_consistent (st : State) :
  consistent st -> consistent (state_of (undo st)).
Proof.
  intros Hc. destruct (Z.lt_ge_cases 0 (historyIndex st)) as [Hpos|Hle].
  - destruct (undo_returns st Hc Hpos) as (g & Hg & ->). simpl.
    destruct Hc as [Hi _]. split; simpl; [lia|exact Hg].
  - unfold undo. destruct (Z.gtb_spec (historyIndex st) 0); [lia|]. exact Hc.
Qed.

Lemma redo_consistent (st : State) :
  consistent st -> consistent (state_of (redo st)).
Proof.
  intros Hc.
  destruct (Z.lt_ge_cases (historyIndex st) (Z.of_nat (length (history st)) - 1))
    as [Hlt|Hge].
  - destruct Hc as [Hi Hcur].
    destruct (redo_returns st (proj1 Hi) Hlt) as (g & Hg & ->). simpl.
    split; simpl; [lia|exact Hg].
  - unfold redo.
    destruct (Z.ltb_spec (historyIndex st) (Z.of_nat (length (history st)) - 1));
      [lia|]. exact Hc.
Qed.

Lemma drawPixel_consistent (row col : Z) (st : State) :
  consistent (drawPixel row col st).
Proof. unfold drawPixel. by apply saveToHistory_consistent. Qed.

Lemma clearCanvas_consistent (st : State) : consistent (clearCanvas st).
Proof. unfold clearCanvas. by apply saveToHistory_consistent. Qed.

Lemma mounted_consistent : consistent mounted.
Proof. split; [simpl; lia | reflexivity]. Qed.

(** The handlers of the colour controls and of the export options leave the
    grid and the history alone. *)
Lemma consistent_frame (st st' : State) :
  canvas st' = canvas st -> history st' = history st ->
  historyIndex st' = historyIndex st -> consistent st -> consistent st'.
Proof. unfold consistent. by intros -> -> ->. Qed.

Lemma brightnessOnChange_consistent (b : Z) (st : State) :
  consistent st -> consistent (brightnessOnChange b st).
Proof.
  apply consistent_frame; unfold brightnessOnChange;
    by destruct (_ <? _)%float.
Qed.

Lemma hexOnChange_consistent (value : string) (st : State) :
  consistent st -> consistent (hexOnChange value st).
Proof.
  apply consistent_frame; unfold hexOnChange; by destruct (test _ _).
Qed.

Lemma handleKeyDown_consistent (c m s : bool) (key : string) (st : State) :
  consistent st -> consistent (state_of (handleKeyDown c m s key st)).
Proof.
  intros Hc. unfold handleKeyDown.
  destruct (c || m); [|exact Hc].
  destruct (_ && negb s); [by apply undo_consistent|].
  destruct (_ || _); [by apply redo_consistent|exact Hc].
Qed.

(** Every event keeps the history in step. *)
Lemma handle_consistent (e : Event) (st : State) :
  consistent st -> consistent (state_of (handle e st)).
Proof.
  intros Hc. destruct e; cbn [handle state_of].
  - apply drawPixel_consistent.
  - unfold handleMouseEnter. destruct (isDrawing st); [|exact Hc].
    apply drawPixel_consistent.
  - exact Hc.
  - exact Hc.
  - by apply handleKeyDown_consistent.
  - by apply undo_consistent.
  - by apply redo_consistent.
  - apply clearCanvas_consistent.
  - exact Hc.
  - exact Hc.
  - exact Hc.
  - by apply brightnessOnChange_consistent.
  - exact Hc.
  - by apply hexOnChange_consistent.
Qed.

Lemma reachable_consistent (st : State) : reachable st -> consistent st.
Proof.
  induction 1 as [|e st _ IH]; [apply mounted_consistent|].
  by apply handle_consistent.
Qed.

(** C2: a commit at cursor [k] below the last index keeps the snapshots
    [0..k], puts the new grid after them and moves the cursor onto it;
    [redo] then changes nothing, and the redo button is disabled. *)
Theorem commit_truncates_redo_branch (st : State) (g : CanvasState) (k : nat) :
  historyIndex st = Z.of_nat k ->
  Z.of_nat k < Z.of_nat (length (history st)) - 1 ->
  let st' := saveToHistory g st in
  history st' = take (S k) (history st) ++ [g] /\
  length (history st') = S (S k) /\
  (forall i : nat, (i <= k)%nat -> history st' !! i = history st !! i) /\
  historyIndex st' = Z.of_nat (S k) /\
  historyIndex st' = Z.of_nat (length (history st')) - 1 /\
  at_index (history st') (historyIndex st') = Some g /\
  redo st' = Returned st' /\
  redoDisabled st' = true.
Proof.
  intros Hk Hlt st'.
  assert (Hh : history st' = take (S k) (history st) ++ [g]).
  { unfold st'. rewrite saveToHistory_history, Hk.
    replace (Z.of_nat k + 1) with (Z.of_nat (S k)) by lia.
    by rewrite slice0_take. }
  assert (Hlen : length (history st') = S (S k)).
  { rewrite Hh, length_app, length_take. cbn [length]. lia. }
  assert (Hidx : historyIndex st' = Z.of_nat (length (history st')) - 1)
    by apply saveToHistory_index.
  split_and!.
  - exact Hh.
  - exact Hlen.
  - intros i Hi. rewrite Hh. rewrite lookup_app_l by (rewrite length_take; lia).
    apply lookup_take_lt. lia.
  - rewrite Hidx, Hlen. lia.
  - exact Hidx.
  - apply saveToHistory_last.
  - unfold redo.
    destruct (Z.ltb_spec (historyIndex st') (Z.of_nat (length (history st')) - 1));
      [lia|reflexivity].
  - unfold redoDisabled. rewrite Hidx. apply Z.geb_le. lia.
Qed.

Lemma commit_truncates_redo_branch_witness :
  let st := state_of (undo (drawPixel 0 0 mounted)) in
  let st' := saveToHistory blankCanvas st in
  history st' = take 1 (history st) ++ [blankCanvas] /\
  length (history st') = 2%nat /\
  (forall i : nat, (i <= 0)%nat -> history st' !! i = history st !! i) /\
  historyIndex st' = 1 /\
  historyIndex st' = Z.of_nat (length (history st')) - 1 /\
  at_index (history st') (historyIndex st') = Some blankCanvas /\
  redo st' = Returned st' /\
  redoDisabled st' = true.
Proof.
  exact (commit_truncates_redo_branch
           (state_of (undo (drawPixel 0 0 mounted))) blankCanvas 0
           eq_refl eq_refl).
Defined.

(** C4: from a reachable state with the cursor above 0, [undo] returns with
    the cursor one lower, and [redo] after it returns the state before the
    [undo]: the same grid on display and the same cursor. *)
Theorem undo_then_redo_restores (st : State) :
  reachable st -> 0 < historyIndex st ->
  exists st1 st2,
    undo st = Returned st1 /\
    historyIndex st1 = historyIndex st - 1 /\
    at_index (history st) (historyIndex st1) = Some (canvas st1) /\
    redo st1 = Returned st2 /\
    canvas st2 = canvas st /\
    historyIndex st2 = historyIndex st /\
    st2 = st.
Proof.
  intros Hr Hpos. pose proof (reachable_consistent st Hr) as Hc.
  destruct (undo_returns st Hc Hpos) as (g & Hg & Hu).
  destruct Hc as [Hi Hcur].
  set (st1 := setCanvas g (setHistoryIndex (historyIndex st - 1) st)) in *.
  destruct (redo_returns st1) as (g' & Hg' & Hre); [simpl; lia..|].
  simpl in Hg'. replace (historyIndex st - 1 + 1) with (historyIndex st) in * by lia.
  rewrite Hcur in Hg'. injection Hg' as <-.
  exists st1, (setCanvas (canvas st) (setHistoryIndex (historyIndex st) st1)).
  split_and!; try done.
  - rewrite Hre. simpl. by replace (historyIndex st - 1 + 1) with (historyIndex st) by lia.
  - by destruct st.
Qed.

Lemma undo_then_redo_restores_witness :
  exists st1 st2,
    undo (handleMouseDown 0 0 mounted) = Returned st1 /\
    historyIndex st1 = historyIndex (handleMouseDown 0 0 mounted) - 1 /\
    at_index (history (handleMouseDown 0 0 mounted)) (historyIndex st1)
    = Some (canvas st1) /\
    redo st1 = Returned st2 /\
    canvas st2 = canvas (handleMouseDown 0 0 mounted) /\
    historyIndex st2 = historyIndex (handleMouseDown 0 0 mounted) /\
    st2 = handleMouseDown 0 0 mounted.
Proof.
  apply (undo_then_redo_restores (handleMouseDown 0 0 mounted)).
  - exact (reachable_step (MouseDown 0 0) mounted reachable_mounted).
  - reflexivity.
Defined.

(** A commit from a state in step: the cursor moves up by one and the
    snapshots up to the old cursor stay as they were. *)
Lemma saveToHistory_in_step (g : CanvasState) (st : State) :
  0 <= historyIndex st < Z.of_nat (length (history st)) ->
  history (saveToHistory g st)
  = take (S (Z.to_nat (historyIndex st))) (history st) ++ [g] /\
  historyIndex (saveToHistory g st) = historyIndex st + 1 /\
  forall i, 0 <= i <= historyIndex st ->
    at_index (history (saveToHistory g st)) i = at_index (history st) i.
Proof.
  intros Hi.
  assert (Hh : history (saveToHistory g st)
               = take (S (Z.to_nat (historyIndex st))) (history st) ++ [g]).
  { rewrite saveToHistory_history.
    replace (historyIndex st + 1)
      with (Z.of_nat (S (Z.to_nat (historyIndex st)))) by lia.
    by rewrite slice0_take. }
  split_and!.
  - exact Hh.
  - rewrite saveToHistory_index, Hh, length_app, length_take. cbn [length]. lia.
  - intros i Hle. rewrite Hh. unfold at_index.
    destruct (Z.ltb_spec i 0); [done|].
    rewrite lookup_app_l by (rewrite length_take; lia).
    apply lookup_take_lt. lia.
Qed.

(** [undo] after a commit from a state in step shows the grid that was on
    display before the commit, with the cursor where it was. *)
Lemma undo_after_commit (g : CanvasState) (st : State) :
  consistent st ->
  exists st'',
    undo (saveToHistory g (setCanvas g st)) = Returned st'' /\
    canvas st'' = canvas st /\ historyIndex st'' = historyIndex st.
Proof.
  intros [Hi Hcur].
  destruct (saveToHistory_in_step g (setCanvas g st) Hi) as (_ & Hidx & Hold).
  cbn [historyIndex history setCanvas] in Hidx, Hold.
  destruct (undo_returns (saveToHistory g (setCanvas g st))) as (g0 & Hg0 & ->).
  - by apply saveToHistory_consistent.
  - lia.
  - rewrite Hidx in *. replace (historyIndex st + 1 - 1) with (historyIndex st) in * by lia.
    rewrite Hold in Hg0 by lia. rewrite Hcur in Hg0. injection Hg0 as <-.
    eexists. split; [reflexivity|]. by simpl.
Qed.

(** ** The grid *)

Lemma imap_fixed {A : Type} (f : nat -> A -> A) (l : list A) :
  (forall i x, l !! i = Some x -> f i x = x) -> imap f l = l.
Proof.
  intros Hf. apply list_eq. intros i. rewrite list_lookup_imap.
  destruct (l !! i) as [x|] eqn:Hx; [|done]. simpl. by rewrite (Hf i x Hx).
Qed.

(** Reading a cell of the grid [drawPixel] builds. *)
Lemma getCell_paint (g : CanvasState) (row col : Z) (c : string) (r' c' : nat) :
  getCell (paint g row col c) r' c'
  = if (Z.of_nat r' =? row) && (Z.of_nat c' =? col)
    then (fun _ => c) <$> getCell g r' c' else getCell g r' c'.
Proof.
  unfold getCell, paint. rewrite list_lookup_imap.
  destruct (g !! r') as [r|]; simpl; [|by destruct (_ && _)].
  rewrite list_lookup_imap.
  destruct (r !! c') as [p|]; simpl; by destruct (_ && _).
Qed.

Lemma square_paint (n : nat) (g : CanvasState) (row col : Z) (c : string) :
  square n g -> square n (paint g row col c).
Proof.
  intros [Hlen Hrows]. split; unfold paint.
  - by rewrite length_imap.
  - apply Forall_lookup. intros i r. rewrite list_lookup_imap.
    destruct (g !! i) as [r0|] eqn:Hr0; [|done]. simpl. intros [= <-].
    rewrite length_imap.
    exact (Forall_lookup_1 (fun r => length r = n) g i r0 Hrows Hr0).
Qed.

Lemma getCell_square (n : nat) (g : CanvasState) (row col : nat) :
  square n g -> (row < n)%nat -> (col < n)%nat -> is_Some (getCell g row col).
Proof.
  intros [Hlen Hrows] Hr Hc. unfold getCell.
  destruct (lookup_lt_is_Some_2 g row) as [r Hrow]; [lia|]. rewrite Hrow. simpl.
  pose proof (Forall_lookup_1 _ _ _ _ Hrows Hrow) as Hl. simpl in Hl.
  destruct (lookup_lt_is_Some_2 r col) as [p Hp]; [lia|]. rewrite Hp. by simpl.
Qed.

(** Outside the grid no cell is the one to paint. *)
Lemma paint_outside (n : nat) (g : CanvasState) (row col : Z) (c : string) :
  square n g ->
  ~ (0 <= row < Z.of_nat n /\ 0 <= col < Z.of_nat n) ->
  paint g row col c = g.
Proof.
  intros [Hlen Hrows] Hout. unfold paint.
  apply imap_fixed. intros i r Hr. apply imap_fixed. intros j p Hp.
  pose proof (lookup_lt_Some _ _ _ Hr) as Hi.
  pose proof (Forall_lookup_1 _ _ _ _ Hrows Hr) as Hl. simpl in Hl.
  pose proof (lookup_lt_Some _ _ _ Hp) as Hj.
  destruct (Z.eqb_spec (Z.of_nat i) row), (Z.eqb_spec (Z.of_nat j) col);
    simpl; try done.
  exfalso. apply Hout. lia.
Qed.

Lemma blankCanvas_replicate :
  blankCanvas
  = replicate GRID_SIZE (replicate GRID_SIZE {| color := "#FFFFFF" |}).
Proof. unfold blankCanvas. by rewrite !fmap_replicate. Qed.

Lemma square_blankCanvas : square GRID_SIZE blankCanvas.
Proof.
  rewrite blankCanvas_replicate. split; [by rewrite length_replicate|].
  apply Forall_replicate. by rewrite length_replicate.
Qed.

Lemma getCell_blankCanvas (row col : nat) :
  (row < GRID_SIZE)%nat -> (col < GRID_SIZE)%nat ->
  getCell blankCanvas row col = Some "#FFFFFF".
Proof.
  intros Hr Hc. rewrite blankCanvas_replicate. unfold getCell.
  rewrite lookup_replicate_2 by done. cbn [mbind option_bind].
  by rewrite lookup_replicate_2 by done.
Qed.

(** C5: painting the cell (row, col) of a grid of side [n] with [c] gives a
    grid of side [n] that reads [c] at (row, col) and reads as [g] at every
    other cell; the grid [g] stays what it was: after [drawPixel] its
    snapshot is still in the history at the old cursor, and [undo] puts
    exactly [g] back on display. *)
Theorem paint_sets_one_cell (n : nat) (g : CanvasState) (row col : nat)
    (c : string) :
  square n g -> (row < n)%nat -> (col < n)%nat ->
  let g' := paint g (Z.of_nat row) (Z.of_nat col) c in
  getCell g' row col = Some c /\
  (forall r' c' : nat, (r', c') <> (row, col) ->
     getCell g' r' c' = getCell g r' c') /\
  square n g' /\
  (forall st : State,
     consistent st -> canvas st = g -> selectedColor st = c ->
     let st' := drawPixel (Z.of_nat row) (Z.of_nat col) st in
     canvas st' = g' /\
     at_index (history st') (historyIndex st) = Some g /\
     exists st'', undo st' = Returned st'' /\ canvas st'' = g).
Proof.
  intros Hsq Hr Hc g'. split_and!.
  - unfold g'. rewrite getCell_paint, !Z.eqb_refl. simpl.
    destruct (getCell_square n g row col Hsq Hr Hc) as [x ->]. done.
  - intros r' c' Hne. unfold g'. rewrite getCell_paint.
    destruct (Z.eqb_spec (Z.of_nat r') (Z.of_nat row)),
             (Z.eqb_spec (Z.of_nat c') (Z.of_nat col)); simpl; try done.
    exfalso. apply Hne. f_equal; lia.
  - by apply square_paint.
  - intros st Hst Hg Hsel st'. unfold st', drawPixel. rewrite Hg, Hsel.
    fold g'. split_and!.
    + reflexivity.
    + destruct Hst as [Hi Hcur].
      destruct (saveToHistory_in_step g' (setCanvas g' st) Hi) as (_ & _ & Hold).
      cbn [historyIndex history setCanvas] in Hold.
      rewrite Hold by lia. by rewrite Hcur, Hg.
    + destruct (undo_after_commit g' st Hst) as (st'' & Hu & Hcv & _).
      exists st''. by rewrite <- Hg.
Qed.

Lemma paint_sets_one_cell_witness :
  let g' := paint blankCanvas 0 0 "#FF0000" in
  getCell g' 0 0 = Some "#FF0000" /\
  (forall r' c' : nat, (r', c') <> (0%nat, 0%nat) ->
     getCell g' r' c' = getCell blankCanvas r' c') /\
  square GRID_SIZE g' /\
  (forall st : State,
     consistent st -> canvas st = blankCanvas -> selectedColor st = "#FF0000" ->
     let st' := drawPixel 0 0 st in
     canvas st' = g' /\
     at_index (history st') (historyIndex st) = Some blankCanvas /\
     exists st'', undo st' = Returned st'' /\ canvas st'' = blankCanvas).
Proof.
  apply (paint_sets_one_cell GRID_SIZE blankCanvas 0 0 "#FF0000").
  - apply square_blankCanvas.
  - unfold GRID_SIZE. lia.
  - unfold GRID_SIZE. lia.
Defined.

(** C6, as the code has it: [drawPixel] has no bounds check.  With (row,
    col) outside a grid of side [n] it fails with nothing; the grid it builds
    is equal to the one on display, and that grid is committed to the
    history like any other: appended after the snapshots up to the cursor,
    with the cursor moved onto it. *)
Theorem drawPixel_outside_commits_copy (n : nat) (st : State) (row col : Z) :
  square n (canvas st) ->
  ~ (0 <= row < Z.of_nat n /\ 0 <= col < Z.of_nat n) ->
  paint (canvas st) row col (selectedColor st) = canvas st /\
  canvas (drawPixel row col st) = canvas st /\
  history (drawPixel row col st)
  = slice0 (history st) (historyIndex st + 1) ++ [canvas st] /\
  historyIndex (drawPixel row col st)
  = Z.of_nat (length (history (drawPixel row col st))) - 1 /\
  (consistent st ->
   length (history (drawPixel row col st))
   = S (S (Z.to_nat (historyIndex st))) /\
   historyIndex (drawPixel row col st) = historyIndex st + 1).
Proof.
  intros Hsq Hout.
  pose proof (paint_outside n _ row col (selectedColor st) Hsq Hout) as Hp.
  unfold drawPixel. rewrite Hp. split_and!; try reflexivity.
  intros [Hi _].
  destruct (saveToHistory_in_step (canvas st) (setCanvas (canvas st) st) Hi)
    as (Hh & Hidx & _).
  cbn [historyIndex history setCanvas] in Hh, Hidx. split; [|exact Hidx].
  rewrite Hh, length_app, length_take. cbn [length]. lia.
Qed.

Lemma drawPixel_outside_commits_copy_witness :
  paint (canvas mounted) 32 0 (selectedColor mounted) = canvas mounted /\
  canvas (drawPixel 32 0 mounted) = canvas mounted /\
  history (drawPixel 32 0 mounted)
  = slice0 (history mounted) (historyIndex mounted + 1) ++ [canvas mounted] /\
  historyIndex (drawPixel 32 0 mounted)
  = Z.of_nat (length (history (drawPixel 32 0 mounted))) - 1 /\
  (consistent mounted ->
   length (history (drawPixel 32 0 mounted))
   = S (S (Z.to_nat (historyIndex mounted))) /\
   historyIndex (drawPixel 32 0 mounted) = historyIndex mounted + 1).
Proof.
  apply (drawPixel_outside_commits_copy GRID_SIZE mounted 32 0).
  - apply square_blankCanvas.
  - unfold GRID_SIZE. lia.
Defined.

(** C6 as stated fails: row 32 is outside the 32 by 32 grid, yet
    [drawPixel 32 0] on the mounted component is not rejected: it leaves a
    history of two snapshots where there was one. *)
Lemma drawPixel_outside_not_rejected :
  ~ (0 <= 32 < Z.of_nat GRID_SIZE /\ 0 <= 0 < Z.of_nat GRID_SIZE) /\
  length (history mounted) = 1%nat /\
  length (history (drawPixel 32 0 mounted)) = 2%nat /\
  drawPixel 32 0 mounted <> mounted.
Proof.
  split_and!.
  - unfold GRID_SIZE. lia.
  - reflexivity.
  - vm_compute. reflexivity.
  - intros Heq. apply (f_equal (fun s => length (history s))) in Heq.
    vm_compute in Heq. discriminate.
Qed.

(** C10: [clearCanvas] puts on display a fresh grid of side [GRID_SIZE]
    whose cells are all [#FFFFFF] and commits it as one new snapshot: the
    history is the snapshots up to the old cursor followed by the blank
    grid, the cursor is on it, nothing is left to redo, and one [undo]
    brings back the grid and the cursor from before the clear. *)
Theorem clearCanvas_commits_blank (st : State) :
  reachable st ->
  let st' := clearCanvas st in
  canvas st' = blankCanvas /\
  square GRID_SIZE (canvas st') /\
  (forall row col : nat, (row < GRID_SIZE)%nat -> (col < GRID_SIZE)%nat ->
     getCell (canvas st') row col = Some "#FFFFFF") /\
  history st'
  = take (S (Z.to_nat (historyIndex st))) (history st) ++ [blankCanvas] /\
  length (history st') = S (S (Z.to_nat (historyIndex st))) /\
  historyIndex st' = historyIndex st + 1 /\
  historyIndex st' = Z.of_nat (length (history st')) - 1 /\
  at_index (history st') (historyIndex st') = Some blankCanvas /\
  redoDisabled st' = true /\
  exists st'', undo st' = Returned st'' /\
               canvas st'' = canvas st /\ historyIndex st'' = historyIndex st.
Proof.
  intros Hr st'. pose proof (reachable_consistent st Hr) as Hc.
  pose proof Hc as [Hi _].
  destruct (saveToHistory_in_step blankCanvas (setCanvas blankCanvas st) Hi)
    as (Hh & Hidx & _).
  cbn [historyIndex history setCanvas] in Hh, Hidx.
  fold (clearCanvas st) in Hh, Hidx. fold st' in Hh, Hidx.
  split_and!.
  - reflexivity.
  - apply square_blankCanvas.
  - intros row col. apply getCell_blankCanvas.
  - exact Hh.
  - rewrite Hh, length_app, length_take. cbn [length]. lia.
  - exact Hidx.
  - apply saveToHistory_index.
  - apply saveToHistory_last.
  - unfold redoDisabled. apply Z.geb_le.
    change (historyIndex st') with (Z.of_nat (length (history st')) - 1). lia.
  - apply (undo_after_commit blankCanvas st Hc).
Qed.

Lemma clearCanvas_commits_blank_witness :
  let st' := clearCanvas (handleMouseDown 0 0 mounted) in
  canvas st' = blankCanvas /\
  square GRID_SIZE (canvas st') /\
  (forall row col : nat, (row < GRID_SIZE)%nat -> (col < GRID_SIZE)%nat ->
     getCell (canvas st') row col = Some "#FFFFFF") /\
  history st'
  = take (S (Z.to_nat (historyIndex (handleMouseDown 0 0 mounted))))
      (history (handleMouseDown 0 0 mounted)) ++ [blankCanvas] /\
  length (history st')
  = S (S (Z.to_nat (historyIndex (handleMouseDown 0 0 mounted)))) /\
  historyIndex st' = historyIndex (handleMouseDown 0 0 mounted) + 1 /\
  historyIndex st' = Z.of_nat (length (history st')) - 1 /\
  at_index (history st') (historyIndex st') = Some blankCanvas /\
  redoDisabled st' = true /\
  exists st'', undo st' = Returned st'' /\
               canvas st'' = canvas (handleMouseDown 0 0 mounted) /\
               historyIndex st'' = historyIndex (handleMouseDown 0 0 mounted).
Proof.
  apply (clearCanvas_commits_blank (handleMouseDown 0 0 mounted)).
  exact (reachable_step (MouseDown 0 0) mounted reachable_mounted).
Defined.

(** ** The hex input *)

Lemma code_inj (c1 c2 : ascii) : code c1 = code c2 -> c1 = c2.
Proof.
  unfold code. intros H%N2Z.inj.
  rewrite <- (ascii_N_embedding c1), <- (ascii_N_embedding c2). by rewrite H.
Qed.

Lemma append_empty_r (s : string) : s +:+ "" = s.
Proof.
  induction s as [|c s IH]; [done|].
  change (String c (s +:+ "") = String c s). by rewrite IH.
Qed.

(** [a{n}] matches a prefix of [n] characters that each match [a]. *)
Lemma match_rep_spec (a : atom) (n : nat) (s s' : string) :
  match_rep a n s = Some s' <->
  exists ds : list ascii,
    length ds = n /\ Forall (fun c => atom_matches a c = true) ds /\
    s = String.string_of_list_ascii ds +:+ s'.
Proof.
  revert s. induction n as [|n IH]; intros s; simpl.
  - split.
    + intros [= ->]. exists []. by repeat split.
    + intros (ds & Hlen & _ & ->). by destruct ds.
  - destruct s as [|c s].
    + split; [done|]. intros (ds & Hlen & _ & Hs). by destruct ds.
    + destruct (atom_matches a c) eqn:Hc.
      * rewrite IH. split.
        -- intros (ds & Hlen & Hall & ->). exists (c :: ds).
           split_and!; [simpl; lia | by constructor | done].
        -- intros (ds & Hlen & Hall & Hs). destruct ds as [|d ds]; [done|].
           simpl in Hs. injection Hs as -> ->. exists ds.
           split_and!; [simpl in Hlen; lia | by inversion Hall | done].
      * split; [done|]. intros (ds & Hlen & Hall & Hs).
        destruct ds as [|d ds]; [done|]. simpl in Hs. injection Hs as -> ->.
        inversion Hall; congruence.
Qed.

Lemma hex_class_matches (c : ascii) :
  atom_matches (Class [("0", "9"); ("A", "F"); ("a", "f")]%char) c
  = is_hex_digit c.
Proof.
  unfold atom_matches, existsb, in_range, is_hex_digit. cbn [fst snd].
  change (code "0") with 48. change (code "9") with 57.
  change (code "A") with 65. change (code "F") with 70.
  change (code "a") with 97. change (code "f") with 102.
  by rewrite orb_false_r, orb_assoc.
Qed.

(** The pattern of the code accepts the strings made of ["#"] and six
    hexadecimal digits, and no other. *)
Lemma test_hex_color (value : string) :
  test hex_color value = true <-> hex_color_string value.
Proof.
  unfold test, hex_color, hex_color_string. cbn [match_items]. split.
  - destruct (match_rep (Lit "#") 1 value) as [s1|] eqn:H1; [|done].
    destruct (match_rep _ 6 s1) as [s2|] eqn:H2; [|done].
    destruct s2; [|done]. intros _.
    apply match_rep_spec in H1 as (d1 & Hl1 & Ha1 & ->).
    apply match_rep_spec in H2 as (ds & Hl & Ha & ->).
    destruct d1 as [|c [|]]; try done. inversion Ha1 as [|? ? Hc _]; subst.
    simpl in Hc. apply Z.eqb_eq, code_inj in Hc as ->.
    exists ds. split_and!; [done| |].
    + eapply Forall_impl; [exact Ha|]. intros x. cbv beta.
      by rewrite hex_class_matches.
    + by rewrite append_empty_r.
  - intros (ds & Hl & Ha & ->).
    change (match_rep (Lit "#") 1 (String "#" (String.string_of_list_ascii ds)))
      with (Some (String.string_of_list_ascii ds)).
    cbv beta iota.
    assert (Hm : match_rep
                   (Class [("0", "9"); ("A", "F"); ("a", "f")]%char) 6
                   (String.string_of_list_ascii ds)
                 = Some EmptyString).
    { apply match_rep_spec. exists ds. split_and!; [done| |].
      - eapply Forall_impl; [exact Ha|]. intros x. cbv beta.
        by rewrite hex_class_matches.
      - by rewrite append_empty_r. }
    by rewrite Hm.
Qed.

(** C8: the hex input accepts exactly the strings made of ["#"] and six
    hexadecimal digits; an accepted string becomes the selected colour and
    nothing else changes; on any other string the handler leaves the whole
    state as it was (the code has no error channel: the rejection is the
    silent no-op). *)
Theorem hexOnChange_accepts_exactly (value : string) (st : State) :
  (test hex_color value = true <-> hex_color_string value) /\
  (hex_color_string value ->
     hexOnChange value st = setSelectedColor value st /\
     selectedColor (hexOnChange value st) = value) /\
  (~ hex_color_string value ->
     hexOnChange value st = st /\
     selectedColor (hexOnChange value st) = selectedColor st).
Proof.
  pose proof (test_hex_color value) as Ht. split_and!; [exact Ht| |].
  - intros Hv%Ht. unfold hexOnChange. by rewrite Hv.
  - intros Hn. unfold hexOnChange.
    destruct (test hex_color value); [|done]. by destruct Hn; apply Ht.
Qed.

(** Some inputs of the hex field, accepted and rejected. *)
Example hexOnChange_samples :
  selectedColor (hexOnChange "#a1B2c3" mounted) = "#a1B2c3" /\
  hexOnChange "#a1B2c" mounted = mounted /\
  hexOnChange "#a1B2c3d" mounted = mounted /\
  hexOnChange "a1B2c3" mounted = mounted /\
  hexOnChange "#a1B2cg" mounted = mounted /\
  hexOnChange "" mounted = mounted.
Proof. by vm_compute. Qed.

(** ** The export *)

Section Render.

Variable s : Z.
Hypothesis s_pos : 0 < s.

(** One cell of the grid, as the loop paints it. *)
Lemma bitmap_fillCell (ri : nat) (p : Pixel) (ci : nat) (cv : Canvas2D)
    (px py : Z) :
  bitmap (fillCell s ri p ci cv) px py
  = if inside cv px py
       && (Z.of_nat ci * s <=? px) && (px <? Z.of_nat ci * s + s)
       && (Z.of_nat ri * s <=? py) && (py <? Z.of_nat ri * s + s)
    then Some (color p) else bitmap cv px py.
Proof. reflexivity. Qed.

Lemma inside_fillCell (ri : nat) (p : Pixel) (ci : nat) (cv : Canvas2D)
    (px py : Z) :
  inside (fillCell s ri p ci cv) px py = inside cv px py.
Proof. reflexivity. Qed.

(** The inner loop keeps the size of the canvas. *)
Lemma inside_row (ri : nat) (l : list Pixel) (i : nat) (cv : Canvas2D)
    (px py : Z) :
  inside (forEach_from (fillCell s ri) i l cv) px py = inside cv px py.
Proof.
  revert i cv. induction l as [|p l IH]; intros i cv; [done|].
  cbn [forEach_from]. by rewrite IH.
Qed.

(** A pixel left of the cells still to paint, or outside the band of the
    row, is not touched by the inner loop. *)
Lemma row_leaves (ri : nat) (l : list Pixel) (i : nat) (cv : Canvas2D)
    (px py : Z) :
  px < Z.of_nat i * s \/ py < Z.of_nat ri * s \/ Z.of_nat ri * s + s <= py ->
  bitmap (forEach_from (fillCell s ri) i l cv) px py = bitmap cv px py.
Proof.
  revert i cv. induction l as [|p l IH]; intros i cv Hout; [done|].
  cbn [forEach_from]. rewrite IH by lia. rewrite bitmap_fillCell.
  destruct (Z.leb_spec (Z.of_nat i * s) px), (Z.leb_spec (Z.of_nat ri * s) py),
    (Z.ltb_spec py (Z.of_nat ri * s + s));
    rewrite ?andb_false_r; simpl; try done; lia.
Qed.

(** A pixel in the block of the cell at position [j] of the row ends with
    the colour of that cell. *)
Lemma row_paints (ri : nat) (l : list Pixel) (i : nat) (cv : Canvas2D)
    (j : nat) (p : Pixel) (px py : Z) :
  l !! j = Some p -> inside cv px py = true ->
  Z.of_nat ri * s <= py < Z.of_nat ri * s + s ->
  Z.of_nat (i + j) * s <= px < Z.of_nat (i + j) * s + s ->
  bitmap (forEach_from (fillCell s ri) i l cv) px py = Some (color p).
Proof.
  revert i cv j. induction l as [|q l IH]; intros i cv j Hj Hin Hy Hx; [done|].
  cbn [forEach_from]. destruct j as [|j].
  - injection Hj as ->. rewrite Nat.add_0_r in Hx.
    rewrite row_leaves by lia. rewrite bitmap_fillCell, Hin.
    destruct (Z.leb_spec (Z.of_nat i * s) px); [|lia].
    destruct (Z.ltb_spec px (Z.of_nat i * s + s)); [|lia].
    destruct (Z.leb_spec (Z.of_nat ri * s) py); [|lia].
    destruct (Z.ltb_spec py (Z.of_nat ri * s + s)); [|lia]. done.
  - apply (IH (S i) _ j); [done|by rewrite inside_fillCell|done|].
    by replace (S i + j)%nat with (i + S j)%nat by lia.
Qed.

Lemma inside_rows (g : CanvasState) (i : nat) (cv : Canvas2D) (px py : Z) :
  inside (forEach_from (fillRow s) i g cv) px py = inside cv px py.
Proof.
  revert i cv. induction g as [|row g IH]; intros i cv; [done|].
  cbn [forEach_from]. rewrite IH. apply inside_row.
Qed.

(** A pixel above the rows still to paint is not touched by the outer
    loop. *)
Lemma rows_leave (g : CanvasState) (i : nat) (cv : Canvas2D) (px py : Z) :
  py < Z.of_nat i * s ->
  bitmap (forEach_from (fillRow s) i g cv) px py = bitmap cv px py.
Proof.
  revert i cv. induction g as [|row g IH]; intros i cv Hy; [done|].
  cbn [forEach_from]. rewrite IH by lia. apply row_leaves. lia.
Qed.

(** A pixel in the block of the cell (r, c) ends with the colour of that
    cell. *)
Lemma rows_paint (g : CanvasState) (i : nat) (cv : Canvas2D) (r c : nat)
    (row : list Pixel) (p : Pixel) (px py : Z) :
  g !! r = Some row -> row !! c = Some p -> inside cv px py = true ->
  Z.of_nat (i + r) * s <= py < Z.of_nat (i + r) * s + s ->
  Z.of_nat c * s <= px < Z.of_nat c * s + s ->
  bitmap (forEach_from (fillRow s) i g cv) px py = Some (color p).
Proof.
  revert i cv r. induction g as [|row0 g IH]; intros i cv r Hr Hc Hin Hy Hx;
    [done|].
  cbn [forEach_from]. destruct r as [|r].
  - injection Hr as ->. rewrite Nat.add_0_r in Hy.
    rewrite rows_leave by lia.
    by apply (row_paints i row 0 cv c p).
  - apply (IH (S i) _ r); [done|done| |by replace (S i + r)%nat with (i + S r)%nat by lia|done].
    unfold fillRow, forEach. by rewrite inside_row.
Qed.

End Render.

Lemma downloadImage_exportCanvas (format : Format) (s : Z) (g : CanvasState) :
  downloadImage true format s g
  = Some (forEach (fillRow s) g (exportCanvas format s)).
Proof. by destruct format. Qed.

Lemma size_row (s : Z) (ri : nat) (l : list Pixel) (i : nat) (cv : Canvas2D) :
  width (forEach_from (fillCell s ri) i l cv) = width cv /\
  height (forEach_from (fillCell s ri) i l cv) = height cv.
Proof.
  revert i cv. induction l as [|p l IH]; intros i cv; [done|].
  cbn [forEach_from]. by destruct (IH (S i) (fillCell s ri p i cv)) as [-> ->].
Qed.

Lemma size_rows (s : Z) (g : CanvasState) (i : nat) (cv : Canvas2D) :
  width (forEach_from (fillRow s) i g cv) = width cv /\
  height (forEach_from (fillRow s) i g cv) = height cv.
Proof.
  revert i cv. induction g as [|row g IH]; intros i cv; [done|].
  cbn [forEach_from]. destruct (IH (S i) (fillRow s row i cv)) as [-> ->].
  apply size_row.
Qed.

Lemma inside_exportCanvas (format : Format) (s px py : Z) :
  inside (exportCanvas format s) px py
  = (0 <=? px) && (px <? Z.of_nat GRID_SIZE * s)
    && (0 <=? py) && (py <? Z.of_nat GRID_SIZE * s).
Proof. by destruct format. Qed.

(** What the export draws: a bitmap of [GRID_SIZE * s] by [GRID_SIZE * s]
    pixels in which the block of each cell has the colour of the cell. *)
Lemma downloadImage_pixels (format : Format) (s : Z) (g : CanvasState) :
  square GRID_SIZE g -> 0 < s ->
  exists cv,
    downloadImage true format s g = Some cv /\
    width cv = Z.of_nat GRID_SIZE * s /\
    height cv = Z.of_nat GRID_SIZE * s /\
    (forall (r c : nat) (color : string),
       getCell g r c = Some color ->
       forall px py,
         Z.of_nat r * s <= py < (Z.of_nat r + 1) * s ->
         Z.of_nat c * s <= px < (Z.of_nat c + 1) * s ->
         bitmap cv px py = Some color) /\
    (forall px py,
       0 <= px < Z.of_nat GRID_SIZE * s -> 0 <= py < Z.of_nat GRID_SIZE * s ->
       bitmap cv px py = getCell g (Z.to_nat (py / s)) (Z.to_nat (px / s))).
Proof.
  intros Hsq Hs. eexists. split; [apply downloadImage_exportCanvas|].
  assert (Hblock : forall (r c : nat) (color : string),
    getCell g r c = Some color ->
    forall px py,
      Z.of_nat r * s <= py < (Z.of_nat r + 1) * s ->
      Z.of_nat c * s <= px < (Z.of_nat c + 1) * s ->
      bitmap (forEach (fillRow s) g (exportCanvas format s)) px py = Some color).
  { intros r c color Hcell px py Hy Hx. unfold getCell in Hcell.
    destruct (g !! r) as [row|] eqn:Hrow; [|done]. cbn [mbind option_bind] in Hcell.
    destruct (row !! c) as [p|] eqn:Hp; [|done]. cbn [mbind option_bind] in Hcell.
    injection Hcell as <-.
    destruct Hsq as [Hlen Hrows].
    pose proof (lookup_lt_Some _ _ _ Hrow) as Hr.
    pose proof (Forall_lookup_1 (fun r => length r = GRID_SIZE) g r row Hrows Hrow)
      as Hl. cbv beta in Hl.
    pose proof (lookup_lt_Some _ _ _ Hp) as Hc.
    apply (rows_paint s Hs g 0 _ r c row p); try done; try lia.
    rewrite inside_exportCanvas.
    destruct (Z.leb_spec 0 px); [|nia].
    destruct (Z.ltb_spec px (Z.of_nat GRID_SIZE * s)); [|nia].
    destruct (Z.leb_spec 0 py); [|nia].
    destruct (Z.ltb_spec py (Z.of_nat GRID_SIZE * s)); [|nia]. done. }
  unfold forEach at 1 2.
  destruct (size_rows s g 0 (exportCanvas format s)) as [-> ->].
  split_and!.
  - by destruct format.
  - by destruct format.
  - exact Hblock.
  - intros px py Hx Hy.
    pose proof (Z.div_pos px s ltac:(lia) Hs) as Hqx.
    pose proof (Z.div_pos py s ltac:(lia) Hs) as Hqy.
    pose proof (Z.mul_div_le px s Hs) as Hlx.
    pose proof (Z.mul_succ_div_gt px s Hs) as Hux.
    pose proof (Z.mul_div_le py s Hs) as Hly.
    pose proof (Z.mul_succ_div_gt py s Hs) as Huy.
    assert (Hrx : px / s < Z.of_nat GRID_SIZE)
      by (apply Z.div_lt_upper_bound; lia).
    assert (Hry : py / s < Z.of_nat GRID_SIZE)
      by (apply Z.div_lt_upper_bound; lia).
    destruct (getCell_square GRID_SIZE g (Z.to_nat (py / s)) (Z.to_nat (px / s)))
      as [color Hcolor]; [done|lia|lia|].
    rewrite Hcolor. apply (Hblock _ _ _ Hcolor); rewrite Z2Nat.id by lia; lia.
Qed.

Lemma square_redCornerCanvas : square GRID_SIZE redCornerCanvas.
Proof. apply square_paint, square_blankCanvas. Qed.

(** Every reachable state has grids of the side [GRID_SIZE], on display
    and in the history. *)
Lemma saveToHistory_well_sized (g : CanvasState) (st : State) :
  square GRID_SIZE g -> Forall (square GRID_SIZE) (history st) ->
  well_sized (saveToHistory g (setCanvas g st)).
Proof.
  intros Hg Hh. split; [exact Hg|].
  rewrite saveToHistory_history. cbn [history historyIndex setCanvas].
  apply Forall_app. split; [|by constructor].
  unfold slice0. by apply Forall_take.
Qed.

Lemma at_index_well_sized (st : State) (i : Z) (g : CanvasState) :
  well_sized st -> at_index (history st) i = Some g -> square GRID_SIZE g.
Proof.
  intros [_ Hh]. unfold at_index. destruct (i <? 0); [done|].
  exact (Forall_lookup_1 _ _ _ _ Hh).
Qed.

Lemma undo_well_sized (st : State) :
  well_sized st -> well_sized (state_of (undo st)).
Proof.
  intros Hw. unfold undo, jsonCopy. destruct (_ >? _); [|exact Hw].
  destruct (at_index _ _) as [g|] eqn:Hg; [|exact Hw].
  split; [exact (at_index_well_sized st _ g Hw Hg)|exact (proj2 Hw)].
Qed.

Lemma redo_well_sized (st : State) :
  well_sized st -> well_sized (state_of (redo st)).
Proof.
  intros Hw. unfold redo, jsonCopy. destruct (_ <? _); [|exact Hw].
  destruct (at_index _ _) as [g|] eqn:Hg; [|exact Hw].
  split; [exact (at_index_well_sized st _ g Hw Hg)|exact (proj2 Hw)].
Qed.

Lemma drawPixel_well_sized (row col : Z) (st : State) :
  well_sized st -> well_sized (drawPixel row col st).
Proof.
  intros [Hc Hh]. apply saveToHistory_well_sized; [|exact Hh].
  by apply square_paint.
Qed.

Lemma handle_well_sized (e : Event) (st : State) :
  well_sized st -> well_sized (state_of (handle e st)).
Proof.
  intros Hw. destruct e; cbn [handle state_of]; try exact Hw.
  - by apply drawPixel_well_sized.
  - unfold handleMouseEnter. destruct (isDrawing st); [|exact Hw].
    by apply drawPixel_well_sized.
  - unfold handleKeyDown. destruct (ctrlKey || metaKey); [|exact Hw].
    destruct (_ && negb shiftKey); [by apply undo_well_sized|].
    destruct (_ || _); [by apply redo_well_sized|exact Hw].
  - by apply undo_well_sized.
  - by apply redo_well_sized.
  - apply saveToHistory_well_sized; [apply square_blankCanvas|exact (proj2 Hw)].
  - unfold brightnessOnChange. by destruct (_ <? _)%float.
  - unfold hexOnChange. by destruct (test _ _).
Qed.

Lemma reachable_well_sized (st : State) : reachable st -> well_sized st.
Proof.
  induction 1 as [|e st _ IH]; [|by apply handle_well_sized].
  split; [apply square_blankCanvas|].
  constructor; [apply square_blankCanvas|constructor].
Qed.

(** C7: for a grid of side [GRID_SIZE] and a scale [s >= 1], the export
    draws a bitmap of [GRID_SIZE * s] by [GRID_SIZE * s] pixels; the pixels
    of rows [r * s, (r + 1) * s) and columns [c * s, (c + 1) * s) all have
    the colour of the cell (r, c), and every pixel of the bitmap is in one
    such block.  For the grid whose only painted cell is (0, 0) = [#FF0000],
    at scale 10: 320 by 320 pixels, [#FF0000] on [0,10) x [0,10) and
    [#FFFFFF] everywhere else. *)
Theorem downloadImage_renders_blocks (format : Format) (s : Z)
    (g : CanvasState) :
  square GRID_SIZE g -> 1 <= s ->
  (exists cv,
     downloadImage true format s g = Some cv /\
     width cv = Z.of_nat GRID_SIZE * s /\
     height cv = Z.of_nat GRID_SIZE * s /\
     (forall (r c : nat) (color : string),
        getCell g r c = Some color ->
        forall px py,
          Z.of_nat r * s <= py < (Z.of_nat r + 1) * s ->
          Z.of_nat c * s <= px < (Z.of_nat c + 1) * s ->
          bitmap cv px py = Some color) /\
     (forall px py,
        0 <= px < Z.of_nat GRID_SIZE * s -> 0 <= py < Z.of_nat GRID_SIZE * s ->
        bitmap cv px py = getCell g (Z.to_nat (py / s)) (Z.to_nat (px / s)))) /\
  (exists cv,
     downloadImage true format 10 redCornerCanvas = Some cv /\
     width cv = 320 /\ height cv = 320 /\
     forall px py,
       0 <= px < 320 -> 0 <= py < 320 ->
       bitmap cv px py
       = Some (if (px <? 10) && (py <? 10) then "#FF0000" else "#FFFFFF")).
Proof.
  intros Hsq Hs. split; [apply downloadImage_pixels; [done|lia]|].
  destruct (downloadImage_pixels format 10 redCornerCanvas
              square_redCornerCanvas ltac:(lia))
    as (cv & Hcv & Hw & Hh & _ & Hpix).
  exists cv. split_and!; [done|done|done|].
  intros px py Hx Hy. rewrite Hpix by (unfold GRID_SIZE; lia).
  unfold redCornerCanvas. rewrite getCell_paint.
  pose proof (Z.div_pos px 10 ltac:(lia) ltac:(lia)) as Hqx.
  pose proof (Z.div_pos py 10 ltac:(lia) ltac:(lia)) as Hqy.
  assert (Hrx : px / 10 < 32) by (apply Z.div_lt_upper_bound; lia).
  assert (Hry : py / 10 < 32) by (apply Z.div_lt_upper_bound; lia).
  rewrite getCell_blankCanvas by (unfold GRID_SIZE; lia).
  rewrite !Z2Nat.id by lia.
  assert (Ex : (px / 10 =? 0) = (px <? 10)).
  { destruct (Z.ltb_spec px 10) as [Hlt|Hge].
    - apply Z.eqb_eq, Z.div_small. lia.
    - apply Z.eqb_neq. pose proof (Z.div_le_lower_bound px 10 1). lia. }
  assert (Ey : (py / 10 =? 0) = (py <? 10)).
  { destruct (Z.ltb_spec py 10) as [Hlt|Hge].
    - apply Z.eqb_eq, Z.div_small. lia.
    - apply Z.eqb_neq. pose proof (Z.div_le_lower_bound py 10 1). lia. }
  rewrite Ex, Ey, (andb_comm (py <? 10)). by destruct (_ && _).
Qed.

Lemma downloadImage_renders_blocks_witness :
  (exists cv,
     downloadImage true png 10 redCornerCanvas = Some cv /\
     width cv = Z.of_nat GRID_SIZE * 10 /\
     height cv = Z.of_nat GRID_SIZE * 10 /\
     (forall (r c : nat) (color : string),
        getCell redCornerCanvas r c = Some color ->
        forall px py,
          Z.of_nat r * 10 <= py < (Z.of_nat r + 1) * 10 ->
          Z.of_nat c * 10 <= px < (Z.of_nat c + 1) * 10 ->
          bitmap cv px py = Some color) /\
     (forall px py,
        0 <= px < Z.of_nat GRID_SIZE * 10 -> 0 <= py < Z.of_nat GRID_SIZE * 10 ->
        bitmap cv px py
        = getCell redCornerCanvas (Z.to_nat (py / 10)) (Z.to_nat (px / 10)))) /\
  (exists cv,
     downloadImage true png 10 redCornerCanvas = Some cv /\
     width cv = 320 /\ height cv = 320 /\
     forall px py,
       0 <= px < 320 -> 0 <= py < 320 ->
       bitmap cv px py
       = Some (if (px <? 10) && (py <? 10) then "#FF0000" else "#FFFFFF")).
Proof.
  apply (downloadImage_renders_blocks png 10 redCornerCanvas).
  - apply square_redCornerCanvas.
  - lia.
Defined.

(** The export button (line 297) on a reachable state, with a scale the
    slider can give (lines 281-282): the picture of the grid on display. *)
Lemma export_of_reachable (st : State) :
  reachable st -> 5 <= exportScale st <= 20 ->
  exists cv,
    downloadImage true (exportFormat st) (exportScale st) (canvas st) = Some cv /\
    width cv = Z.of_nat GRID_SIZE * exportScale st /\
    height cv = Z.of_nat GRID_SIZE * exportScale st /\
    forall px py,
      0 <= px < width cv -> 0 <= py < height cv ->
      bitmap cv px py
      = getCell (canvas st) (Z.to_nat (py / exportScale st))
          (Z.to_nat (px / exportScale st)).
Proof.
  intros [Hsq _]%reachable_well_sized Hs.
  destruct (downloadImage_pixels (exportFormat st) (exportScale st) (canvas st)
              Hsq ltac:(lia)) as (cv & Hcv & Hw & Hh & _ & Hpix).
  exists cv. split_and!; [done|done|done|].
  intros px py Hx Hy. apply Hpix; lia.
Qed.

(** ** More on the history *)

(** X1: in every reachable state the history is not empty, the cursor is an
    index of it, and the snapshot at the cursor is the grid on display. *)
Theorem reachable_history_in_step (st : State) :
  reachable st ->
  (1 <= length (history st))%nat /\
  0 <= historyIndex st < Z.of_nat (length (history st)) /\
  at_index (history st) (historyIndex st) = Some (canvas st).
Proof.
  intros [Hi Hcur]%reachable_consistent. split_and!; [lia|lia|lia|exact Hcur].
Qed.

Lemma reachable_history_in_step_witness :
  (1 <= length (history (handleMouseDown 3 4 mounted)))%nat /\
  0 <= historyIndex (handleMouseDown 3 4 mounted)
    < Z.of_nat (length (history (handleMouseDown 3 4 mounted))) /\
  at_index (history (handleMouseDown 3 4 mounted))
    (historyIndex (handleMouseDown 3 4 mounted))
  = Some (canvas (handleMouseDown 3 4 mounted)).
Proof.
  apply (reachable_history_in_step (handleMouseDown 3 4 mounted)).
  exact (reachable_step (MouseDown 3 4) mounted reachable_mounted).
Defined.

Lemma undo_never_throws (st : State) :
  consistent st -> exists st', undo st = Returned st'.
Proof.
  intros Hc. destruct (Z.lt_ge_cases 0 (historyIndex st)) as [Hpos|Hle].
  - destruct (undo_returns st Hc Hpos) as (g & _ & ->). eauto.
  - unfold undo. destruct (Z.gtb_spec (historyIndex st) 0); [lia|eauto].
Qed.

Lemma redo_never_throws (st : State) :
  consistent st -> exists st', redo st = Returned st'.
Proof.
  intros [Hi _].
  destruct (Z.lt_ge_cases (historyIndex st) (Z.of_nat (length (history st)) - 1))
    as [Hlt|Hge].
  - destruct (redo_returns st (proj1 Hi) Hlt) as (g & _ & ->). eauto.
  - unfold redo.
    destruct (Z.ltb_spec (historyIndex st) (Z.of_nat (length (history st)) - 1));
      [lia|eauto].
Qed.

(** X2: no event makes a handler throw in a reachable state: the
    [JSON.parse] of [undo] and [redo] is never given [undefined]. *)
Theorem reachable_handlers_return (e : Event) (st : State) :
  reachable st -> exists st', handle e st = Returned st'.
Proof.
  intros Hc%reachable_consistent. destruct e; cbn [handle]; eauto.
  - unfold handleKeyDown. destruct (ctrlKey || metaKey); [|eauto].
    destruct (_ && negb shiftKey); [by apply undo_never_throws|].
    destruct (_ || _); [by apply redo_never_throws|eauto].
  - by apply undo_never_throws.
  - by apply redo_never_throws.
Qed.

Lemma reachable_handlers_return_witness :
  exists st', handle (KeyDown true false false "z") (handleMouseDown 3 4 mounted)
              = Returned st'.
Proof.
  apply (reachable_handlers_return (KeyDown true false false "z")
           (handleMouseDown 3 4 mounted)).
  exact (reachable_step (MouseDown 3 4) mounted reachable_mounted).
Defined.

(** X3: in every reachable state the grid on display and every snapshot of
    the history have [GRID_SIZE] rows of [GRID_SIZE] cells. *)
Theorem reachable_grids_square (st : State) :
  reachable st ->
  square GRID_SIZE (canvas st) /\
  (forall (i : nat) (g : CanvasState),
     history st !! i = Some g -> square GRID_SIZE g).
Proof.
  intros [Hc Hh]%reachable_well_sized. split; [exact Hc|].
  intros i g Hg. exact (Forall_lookup_1 _ _ _ _ Hh Hg).
Qed.

Lemma reachable_grids_square_witness :
  square GRID_SIZE (canvas (clearCanvas mounted)) /\
  (forall (i : nat) (g : CanvasState),
     history (clearCanvas mounted) !! i = Some g -> square GRID_SIZE g).
Proof.
  apply (reachable_grids_square (clearCanvas mounted)).
  exact (reachable_step ClearClick mounted reachable_mounted).
Defined.

(** [redo] undoes an [undo], and [undo] a [redo]. *)
Lemma redo_undo_cancel (st : State) :
  consistent st -> 0 < historyIndex st ->
  state_of (redo (state_of (undo st))) = st.
Proof.
  intros Hc Hpos. destruct (undo_returns st Hc Hpos) as (g & Hg & ->).
  destruct Hc as [Hi Hcur]. cbn [state_of].
  set (st1 := setCanvas g (setHistoryIndex (historyIndex st - 1) st)).
  destruct (redo_returns st1) as (g' & Hg' & ->); [simpl; lia..|].
  simpl in Hg'. replace (historyIndex st - 1 + 1) with (historyIndex st) in * by lia.
  rewrite Hcur in Hg'. injection Hg' as <-. cbn [state_of]. unfold st1.
  destruct st. unfold setCanvas, setHistoryIndex. simpl. f_equal. lia.
Qed.

Lemma undo_redo_cancel (st : State) :
  consistent st -> historyIndex st < Z.of_nat (length (history st)) - 1 ->
  state_of (undo (state_of (redo st))) = st.
Proof.
  intros [Hi Hcur] Hlt.
  destruct (redo_returns st (proj1 Hi) Hlt) as (g & Hg & ->). cbn [state_of].
  set (st1 := setCanvas g (setHistoryIndex (historyIndex st + 1) st)).
  assert (Hc1 : consistent st1) by (split; simpl; [lia|exact Hg]).
  destruct (undo_returns st1 Hc1) as (g' & Hg' & ->); [simpl; lia|].
  simpl in Hg'. replace (historyIndex st + 1 - 1) with (historyIndex st) in * by lia.
  rewrite Hcur in Hg'. injection Hg' as <-. cbn [state_of]. unfold st1.
  destruct st. unfold setCanvas, setHistoryIndex. simpl. f_equal. lia.
Qed.

(** X4: from a reachable state where a redo is possible, [redo] and then
    [undo] gives back the state before the [redo]: the same grid on display
    and the same cursor. *)
Theorem redo_then_undo_restores (st : State) :
  reachable st -> historyIndex st < Z.of_nat (length (history st)) - 1 ->
  exists st1,
    redo st = Returned st1 /\
    historyIndex st1 = historyIndex st + 1 /\
    at_index (history st) (historyIndex st + 1) = Some (canvas st1) /\
    undo st1 = Returned st.
Proof.
  intros Hc%reachable_consistent Hlt.
  pose proof (undo_redo_cancel st Hc Hlt) as Hback.
  destruct Hc as [Hi Hcur].
  destruct (redo_returns st (proj1 Hi) Hlt) as (g & Hg & Hre).
  rewrite Hre in Hback. cbn [state_of] in Hback.
  eexists. split_and!; [exact Hre|done|exact Hg|].
  set (st1 := setCanvas g (setHistoryIndex (historyIndex st + 1) st)) in *.
  assert (Hc1 : consistent st1) by (split; simpl; [lia|exact Hg]).
  destruct (undo_never_throws st1 Hc1) as [st2 Hu].
  rewrite Hu in Hback |- *. cbn [state_of] in Hback. by rewrite Hback.
Qed.

Lemma redo_then_undo_restores_witness :
  exists st1,
    redo (state_of (undo (handleMouseDown 3 4 mounted))) = Returned st1 /\
    historyIndex st1
    = historyIndex (state_of (undo (handleMouseDown 3 4 mounted))) + 1 /\
    at_index (history (state_of (undo (handleMouseDown 3 4 mounted))))
      (historyIndex (state_of (undo (handleMouseDown 3 4 mounted))) + 1)
    = Some (canvas st1) /\
    undo st1 = Returned (state_of (undo (handleMouseDown 3 4 mounted))).
Proof.
  apply (redo_then_undo_restores
           (state_of (undo (handleMouseDown 3 4 mounted)))).
  - exact (reachable_step UndoClick _
             (reachable_step (MouseDown 3 4) mounted reachable_mounted)).
  - reflexivity.
Defined.

Lemma undoN_S (n : nat) (st : State) :
  undoN (S n) st = state_of (undo (undoN n st)).
Proof. reflexivity. Qed.

Lemma redoN_S_r (n : nat) (st : State) :
  redoN (S n) st = redoN n (state_of (redo st)).
Proof. unfold redoN. by rewrite Nat.iter_succ_r. Qed.

Lemma undoN_steps (n : nat) (st : State) :
  consistent st -> Z.of_nat n <= historyIndex st ->
  consistent (undoN n st) /\
  history (undoN n st) = history st /\
  historyIndex (undoN n st) = historyIndex st - Z.of_nat n /\
  redoN n (undoN n st) = st.
Proof.
  intros Hc. induction n as [|n IH]; intros Hn.
  - split_and!; [done|done|simpl; lia|done].
  - destruct IH as (Hcn & Hh & Hidx & Hback); [lia|].
    rewrite undoN_S.
    destruct (undo_returns (undoN n st) Hcn) as (g & Hg & Hu); [lia|].
    split_and!.
    + by apply undo_consistent.
    + rewrite Hu. simpl. exact Hh.
    + rewrite Hu. simpl. lia.
    + rewrite redoN_S_r, redo_undo_cancel by (done || lia). exact Hback.
Qed.

(** X5: from a reachable state with the cursor at [k], [n <= k] undos in a
    row leave the history as it is, move the cursor to [k - n] and show the
    snapshot stored there; [n] redos after them give back the state before
    the first undo. *)
Theorem undoN_then_redoN_restores (n : nat) (st : State) :
  reachable st -> Z.of_nat n <= historyIndex st ->
  history (undoN n st) = history st /\
  historyIndex (undoN n st) = historyIndex st - Z.of_nat n /\
  at_index (history st) (historyIndex st - Z.of_nat n)
  = Some (canvas (undoN n st)) /\
  redoN n (undoN n st) = st.
Proof.
  intros Hc%reachable_consistent Hn.
  destruct (undoN_steps n st Hc Hn) as ([_ Hcur] & Hh & Hidx & Hback).
  rewrite Hh, Hidx in Hcur. by split_and!.
Qed.

Lemma undoN_then_redoN_restores_witness :
  let st := handleMouseDown 0 0 mounted in
  history (undoN 1 st) = history st /\
  historyIndex (undoN 1 st) = historyIndex st - Z.of_nat 1 /\
  at_index (history st) (historyIndex st - Z.of_nat 1)
  = Some (canvas (undoN 1 st)) /\
  redoN 1 (undoN 1 st) = st.
Proof.
  apply (undoN_then_redoN_restores 1 (handleMouseDown 0 0 mounted)).
  - exact (reachable_step (MouseDown 0 0) mounted reachable_mounted).
  - vm_compute. discriminate.
Defined.

(** X6: in a reachable state each of the two buttons is disabled exactly
    when its action would change nothing. *)
Theorem buttons_disabled_iff_noop (st : State) :
  reachable st ->
  (undoDisabled st = true <-> undo st = Returned st) /\
  (redoDisabled st = true <-> redo st = Returned st).
Proof.
  intros Hc%reachable_consistent. pose proof Hc as [Hi _].
  unfold undoDisabled, redoDisabled. split; split.
  - intros H%Z.leb_le. unfold undo.
    by destruct (Z.gtb_spec (historyIndex st) 0); [lia|].
  - intros Hu. apply Z.leb_le.
    destruct (Z.lt_ge_cases 0 (historyIndex st)) as [Hpos|Hle]; [|lia].
    destruct (undo_returns st Hc Hpos) as (g & _ & Hu').
    rewrite Hu' in Hu. injection Hu as Hu.
    apply (f_equal historyIndex) in Hu. simpl in Hu. lia.
  - intros H%Z.geb_le. unfold redo.
    by destruct (Z.ltb_spec (historyIndex st)
                   (Z.of_nat (length (history st)) - 1)); [lia|].
  - intros Hr. apply Z.geb_le.
    destruct (Z.lt_ge_cases (historyIndex st)
                (Z.of_nat (length (history st)) - 1)) as [Hlt|Hge]; [|lia].
    destruct (redo_returns st (proj1 Hi) Hlt) as (g & _ & Hr').
    rewrite Hr' in Hr. injection Hr as Hr.
    apply (f_equal historyIndex) in Hr. simpl in Hr. lia.
Qed.

Lemma buttons_disabled_iff_noop_witness :
  (undoDisabled mounted = true <-> undo mounted = Returned mounted) /\
  (redoDisabled mounted = true <-> redo mounted = Returned mounted).
Proof. exact (buttons_disabled_iff_noop mounted reachable_mounted). Defined.

(** One painted cell from a state in step: one more snapshot, the cursor on
    it, the older snapshots where they were. *)
Lemma drawPixel_in_step (row col : Z) (st : State) :
  consistent st ->
  historyIndex (drawPixel row col st) = historyIndex st + 1 /\
  Z.of_nat (length (history (drawPixel row col st))) = historyIndex st + 2 /\
  forall i, 0 <= i <= historyIndex st ->
    at_index (history (drawPixel row col st)) i = at_index (history st) i.
Proof.
  intros [Hi _]. unfold drawPixel.
  set (g := paint _ _ _ _).
  destruct (saveToHistory_in_step g (setCanvas g st) Hi) as (Hh & Hidx & Hold).
  cbn [historyIndex history setCanvas] in Hh, Hidx, Hold.
  split_and!; [exact Hidx| |exact Hold].
  rewrite Hh, length_app, length_take. cbn [length]. lia.
Qed.

Lemma hovers_cons (rc : Z * Z) (cells : list (Z * Z)) (st : State) :
  hovers (rc :: cells) st = hovers cells (handleMouseEnter (fst rc) (snd rc) st).
Proof. reflexivity. Qed.




(** X8: with the button up, hovering changes nothing: after a release (or
    the pointer leaving the grid), and on the mounted component before any
    press, a run of hover events leaves the state as it is. *)
Theorem hovers_idle_noop (cells : list (Z * Z)) (st : State) :
  hovers cells (handleMouseUp st) = handleMouseUp st /\
  state_of (handle MouseLeave st) = handleMouseUp st /\
  hovers cells mounted = mounted.
Proof.
  assert (Hidle : forall s, isDrawing s = false -> hovers cells s = s).
  { induction cells as [|rc cells IH]; intros s Hs; [done|].
    rewrite hovers_cons. unfold handleMouseEnter. rewrite Hs. by apply IH. }
  split_and!; [by apply Hidle|done|by apply Hidle].
Qed.

(** ** More on the grid *)

Lemma imap_imap {A B C : Type} (f : nat -> B -> C) (g : nat -> A -> B)
    (l : list A) :
  imap f (imap g l) = imap (fun i x => f i (g i x)) l.
Proof.
  apply list_eq. intros i. rewrite !list_lookup_imap. by destruct (l !! i).
Qed.

(** Two paints in a row, cell by cell. *)
Lemma paint_paint (g : CanvasState) (r1 c1 r2 c2 : Z) (a b : string) :
  paint (paint g r1 c1 a) r2 c2 b
  = imap (fun i row =>
            imap (fun j p =>
                    if (Z.of_nat i =? r2) && (Z.of_nat j =? c2)
                    then {| color := b |}
                    else if (Z.of_nat i =? r1) && (Z.of_nat j =? c1)
                         then {| color := a |} else p) row) g.
Proof.
  unfold paint. rewrite imap_imap. apply imap_ext. intros i row _.
  cbv beta. by rewrite imap_imap.
Qed.

Lemma paint_overwrites (g : CanvasState) (r c : Z) (a b : string) :
  paint (paint g r c a) r c b = paint g r c b.
Proof.
  rewrite paint_paint. unfold paint. apply imap_ext. intros i row _.
  apply imap_ext. intros j p _. cbv beta. by destruct (_ && _).
Qed.

(** X9: painting is last-write-wins on a cell and order-independent across
    cells: painting a cell twice is painting it with the second colour, and
    two paints of different cells give the same grid in either order. *)
Theorem paint_overwrites_and_commutes (g : CanvasState) (r1 c1 r2 c2 : Z)
    (a b : string) :
  paint (paint g r1 c1 a) r1 c1 b = paint g r1 c1 b /\
  ((r1, c1) <> (r2, c2) ->
   paint (paint g r1 c1 a) r2 c2 b = paint (paint g r2 c2 b) r1 c1 a).
Proof.
  split; [apply paint_overwrites|].
  intros Hne. rewrite !paint_paint.
  apply imap_ext. intros i row _. apply imap_ext. intros j p _. cbv beta.
  destruct (Z.eqb_spec (Z.of_nat i) r2), (Z.eqb_spec (Z.of_nat j) c2),
    (Z.eqb_spec (Z.of_nat i) r1), (Z.eqb_spec (Z.of_nat j) c1);
    simpl; try done.
  exfalso. apply Hne. congruence.
Qed.

(** X10: nothing is deduplicated: painting the same cell again with the same
    colour, from a reachable state, leaves the grid on display as it is and
    still adds a snapshot, equal to the one before it. *)
Theorem repaint_commits_again (row col : Z) (st : State) :
  reachable st ->
  let st1 := drawPixel row col st in
  let st2 := drawPixel row col st1 in
  canvas st2 = canvas st1 /\
  historyIndex st2 = historyIndex st1 + 1 /\
  Z.of_nat (length (history st2)) = Z.of_nat (length (history st1)) + 1 /\
  at_index (history st2) (historyIndex st1) = Some (canvas st1) /\
  at_index (history st2) (historyIndex st2) = Some (canvas st1).
Proof.
  intros Hc%reachable_consistent st1 st2.
  pose proof (drawPixel_consistent row col st) as Hc1. fold st1 in Hc1.
  destruct (drawPixel_in_step row col st Hc) as (Hi1 & Hl1 & _).
  destruct (drawPixel_in_step row col st1 Hc1) as (Hi2 & Hl2 & Hold).
  fold st1 in Hi1, Hl1. fold st2 in Hi2, Hl2, Hold.
  assert (Hcv : canvas st2 = canvas st1).
  { unfold st2, st1, drawPixel. cbn [canvas selectedColor saveToHistory
      setHistoryIndex setHistory setCanvas].
    apply paint_overwrites. }
  destruct Hc as [Hi _].
  split_and!; [exact Hcv|lia|lia| |].
  - rewrite Hold by lia. by destruct Hc1.
  - pose proof (drawPixel_consistent row col st1) as [_ Hcur]. fold st2 in Hcur.
    by rewrite Hcur, Hcv.
Qed.

Lemma repaint_commits_again_witness :
  let st1 := drawPixel 5 6 mounted in
  let st2 := drawPixel 5 6 st1 in
  canvas st2 = canvas st1 /\
  historyIndex st2 = historyIndex st1 + 1 /\
  Z.of_nat (length (history st2)) = Z.of_nat (length (history st1)) + 1 /\
  at_index (history st2) (historyIndex st1) = Some (canvas st1) /\
  at_index (history st2) (historyIndex st2) = Some (canvas st1).
Proof. exact (repaint_commits_again 5 6 mounted reachable_mounted). Defined.

(** X11: the colour and export controls never touch the drawing, and the
    drawing never touches them: an event of the hue, brightness, preset, hex,
    format or scale controls leaves the grid, the history, the cursor and
    the drawing flag as they were; every other event leaves the selected
    colour, the export format and the export scale as they were. *)
Theorem controls_and_drawing_apart (e : Event) (st : State) :
  let st' := state_of (handle e st) in
  match e with
  | HueChange _ | BrightnessChange _ | PresetClick _ | HexChange _
  | FormatClick _ | ScaleChange _ =>
      canvas st' = canvas st /\ history st' = history st /\
      historyIndex st' = historyIndex st /\ isDrawing st' = isDrawing st
  | _ =>
      selectedColor st' = selectedColor st /\
      exportFormat st' = exportFormat st /\ exportScale st' = exportScale st
  end.
Proof.
  assert (Hu : selectedColor (state_of (undo st)) = selectedColor st /\
               exportFormat (state_of (undo st)) = exportFormat st /\
               exportScale (state_of (undo st)) = exportScale st).
  { unfold undo, jsonCopy. destruct (_ >? _); [|done]. by destruct (at_index _ _). }
  assert (Hr : selectedColor (state_of (redo st)) = selectedColor st /\
               exportFormat (state_of (redo st)) = exportFormat st /\
               exportScale (state_of (redo st)) = exportScale st).
  { unfold redo, jsonCopy. destruct (_ <? _); [|done]. by destruct (at_index _ _). }
  destruct e; cbn [handle state_of]; try done.
  - unfold handleMouseEnter. by destruct (isDrawing st).
  - unfold handleKeyDown. destruct (ctrlKey || metaKey); [|done].
    destruct (_ && negb shiftKey); [done|]. by destruct (_ || _).
  - unfold brightnessOnChange. by destruct (_ <? _)%float.
  - unfold hexOnChange. by destruct (test _ _).
Qed.

(** ** More on the colours *)

Lemma forallb_Zrange (P : Z -> bool) (n : nat) (lo : Z) :
  forallb P (Zrange lo n) = true ->
  forall v, lo <= v < lo + Z.of_nat n -> P v = true.
Proof. apply forallb_seqZ. Qed.

Lemma is_hex_digit_chars (a : ascii) :
  is_hex_digit a = existsb (Ascii.eqb a) hex_chars.
Proof. by destruct a as [[] [] [] [] [] [] [] []]. Qed.

Lemma hex_digit_in_chars (a : ascii) :
  is_hex_digit a = true -> In a hex_chars.
Proof.
  rewrite is_hex_digit_chars. intros (c & Hin & Heq)%existsb_exists.
  by apply Ascii.eqb_eq in Heq as ->.
Qed.

(** Checking a property of all pairs of hexadecimal digits one by one. *)
Lemma forallb_hex_pairs (P : ascii -> ascii -> bool) :
  forallb (fun x => forallb (P x) hex_chars) hex_chars = true ->
  forall x y, is_hex_digit x = true -> is_hex_digit y = true -> P x y = true.
Proof.
  intros Hall x y Hx%hex_digit_in_chars Hy%hex_digit_in_chars.
  rewrite forallb_forall in Hall. specialize (Hall x Hx).
  rewrite forallb_forall in Hall. by apply Hall.
Qed.

(** A byte is written as two hexadecimal digits. *)
Lemma byte_two_hex_digits (n : integral) :
  is_byte n = true -> two_hex_digits (padStart2 (toString16 n)) = true.
Proof.
  destruct n as [| | |v]; try done. cbn [is_byte]. intros [H0 H1]%andb_prop.
  apply (forallb_Zrange
           (fun v => two_hex_digits (padStart2 (toString16 (IInt v)))) 256 0);
    [by vm_compute|lia].
Qed.

Lemma two_hex_digits_inv (s : string) :
  two_hex_digits s = true ->
  exists x y, s = String x (String y EmptyString) /\
              is_hex_digit x = true /\ is_hex_digit y = true.
Proof.
  destruct s as [|x [|y [|]]]; try done. cbn [two_hex_digits].
  intros [Hx Hy]%andb_prop. by exists x, y.
Qed.

(** Three bytes make a colour the hex input would accept. *)
Lemma rgbHex_valid (r g b : integral) :
  is_byte r = true -> is_byte g = true -> is_byte b = true ->
  test hex_color (rgbHex r g b) = true.
Proof.
  intros (x1 & y1 & Er & Hx1 & Hy1)%byte_two_hex_digits%two_hex_digits_inv
         (x2 & y2 & Eg & Hx2 & Hy2)%byte_two_hex_digits%two_hex_digits_inv
         (x3 & y3 & Eb & Hx3 & Hy3)%byte_two_hex_digits%two_hex_digits_inv.
  unfold rgbHex. rewrite Er, Eg, Eb. apply test_hex_color.
  exists [x1; y1; x2; y2; x3; y3]. split_and!; [done| |done].
  by repeat constructor.
Qed.

Lemma hueToColor_rgbHex (hue : Z) :
  hueToColor hue
  = rgbHex (hueChannels hue).1.1 (hueChannels hue).1.2 (hueChannels hue).2.
Proof.
  unfold hueToColor, hueChannels.
  repeat match goal with
         | |- context [if sextant ?a ?b ?h then _ else _] =>
             destruct (sextant a b h)
         end; reflexivity.
Qed.

Lemma brightnessOnChange_rgbHex (brightness : Z) (st : State) :
  selectedColor (brightnessOnChange brightness st)
  = let hex := replace_hash (selectedColor st) in
    rgbHex (brightChannel brightness (substr 0 2 hex))
           (brightChannel brightness (substr 2 2 hex))
           (brightChannel brightness (substr 4 2 hex)).
Proof.
  unfold brightnessOnChange, brightChannel. cbv zeta.
  by destruct (_ <? _)%float.
Qed.

(** The colour string of six given digits, and the digits [replace] and
    [substr] cut out of it. *)
Lemma hex_color_string_inv (s : string) :
  hex_color_string s ->
  exists x1 y1 x2 y2 x3 y3,
    s = String "#" (String x1 (String y1 (String x2 (String y2
          (String x3 (String y3 EmptyString)))))) /\
    Forall (fun c => is_hex_digit c = true) [x1; y1; x2; y2; x3; y3].
Proof.
  intros (ds & Hlen & Hall & ->).
  destruct ds as [|x1 [|y1 [|x2 [|y2 [|x3 [|y3 [|]]]]]]]; try done.
  by exists x1, y1, x2, y2, x3, y3.
Qed.

Lemma brightChannel_byte (brightness : Z) (x y : ascii) :
  0 <= brightness <= 100 ->
  is_hex_digit x = true -> is_hex_digit y = true ->
  is_byte (brightChannel brightness (String x (String y EmptyString))) = true.
Proof.
  intros Hb Hx Hy.
  assert (Hall : forallb (fun b =>
            forallb (fun x => forallb (fun y =>
              is_byte (brightChannel b (String x (String y EmptyString))))
              hex_chars) hex_chars) (Zrange 0 101) = true) by by vm_compute.
  pose proof (forallb_Zrange _ 101 0 Hall brightness ltac:(lia)) as Hp.
  cbv beta in Hp.
  exact (forallb_hex_pairs
           (fun x y => is_byte (brightChannel brightness
                                  (String x (String y EmptyString))))
           Hp x y Hx Hy).
Qed.

Lemma hueToColor_valid (hue : Z) :
  hueMin <= hue <= hueMax -> test hex_color (hueToColor hue) = true.
Proof.
  unfold hueMin, hueMax. intros Hh.
  apply (forallb_Zrange (fun h => test hex_color (hueToColor h)) 361 0);
    [by vm_compute|lia].
Qed.

Lemma brightnessOnChange_valid (brightness : Z) (st : State) :
  0 <= brightness <= 100 ->
  test hex_color (selectedColor st) = true ->
  test hex_color (selectedColor (brightnessOnChange brightness st)) = true.
Proof.
  intros Hb (x1 & y1 & x2 & y2 & x3 & y3 & Hs & Hall)%test_hex_color%hex_color_string_inv.
  rewrite brightnessOnChange_rgbHex, Hs. cbv zeta.
  change (replace_hash (String "#" ?s)) with s.
  cbn [substr String.substring].
  repeat match goal with
         | H : Forall _ (_ :: _) |- _ => inversion H; clear H; subst
         end.
  apply rgbHex_valid; by apply brightChannel_byte.
Qed.

(** X12: the selected colour is always a colour the hex input would accept
    ('#' and six hexadecimal digits, so that the two sliders always read three
    channels from it), in every state the rendered controls lead to: hue in
    [0,360], brightness in [0,100], the eight presets, any text in the hex
    input, any drawing. *)
Theorem ui_selectedColor_valid (st : State) :
  ui_reachable st ->
  test hex_color (selectedColor st) = true /\
  hex_color_string (selectedColor st).
Proof.
  intros Hr.
  assert (Ht : test hex_color (selectedColor st) = true).
  { induction Hr as [|e st _ IH Hev]; [by vm_compute|].
    destruct e; cbn [handle state_of ui_event] in *; try exact IH.
    - unfold handleMouseEnter. by destruct (isDrawing st).
    - unfold handleKeyDown. destruct (ctrlKey || metaKey); [|exact IH].
      destruct (_ && negb shiftKey).
      + unfold undo, jsonCopy. destruct (_ >? _); [|exact IH].
        by destruct (at_index _ _).
      + destruct (_ || _); [|exact IH].
        unfold redo, jsonCopy. destruct (_ <? _); [|exact IH].
        by destruct (at_index _ _).
    - unfold undo, jsonCopy. destruct (_ >? _); [|exact IH].
      by destruct (at_index _ _).
    - unfold redo, jsonCopy. destruct (_ <? _); [|exact IH].
      by destruct (at_index _ _).
    - by apply hueToColor_valid.
    - by apply brightnessOnChange_valid.
    - unfold PRESETS in Hev. cbn [In] in Hev.
      repeat (destruct Hev as [<-|Hev]; [by vm_compute|]). done.
    - unfold hexOnChange. destruct (test hex_color value) eqn:Hv; [exact Hv|exact IH]. }
  split; [exact Ht|by apply test_hex_color].
Qed.

Lemma ui_selectedColor_valid_witness :
  test hex_color
    (selectedColor (state_of (handle (BrightnessChange 30)
                      (state_of (handle (HueChange 200) mounted))))) = true /\
  hex_color_string
    (selectedColor (state_of (handle (BrightnessChange 30)
                      (state_of (handle (HueChange 200) mounted))))).
Proof.
  apply (ui_selectedColor_valid
           (state_of (handle (BrightnessChange 30)
              (state_of (handle (HueChange 200) mounted))))).
  apply (ui_reachable_step (BrightnessChange 30)); [|cbn; lia].
  apply (ui_reachable_step (HueChange 200)); [|unfold ui_event, hueMin, hueMax; lia].
  apply ui_reachable_mounted.
Defined.

Lemma integral_eqb_eq (a b : integral) : integral_eqb a b = true -> a = b.
Proof.
  destruct a as [|s| |x], b as [|s'| |y]; try done; cbn [integral_eqb].
  - by intros ->%Bool.eqb_prop.
  - by intros ->%Z.eqb_eq.
Qed.

(** What [replace] and [substr] cut out of a colour written by the
    sliders: the two digits of each channel. *)
Lemma rgbHex_cut (r g b : integral) :
  is_byte r = true -> is_byte g = true -> is_byte b = true ->
  substr 0 2 (replace_hash (rgbHex r g b)) = padStart2 (toString16 r) /\
  substr 2 2 (replace_hash (rgbHex r g b)) = padStart2 (toString16 g) /\
  substr 4 2 (replace_hash (rgbHex r g b)) = padStart2 (toString16 b).
Proof.
  intros (x1 & y1 & Er & _)%byte_two_hex_digits%two_hex_digits_inv
         (x2 & y2 & Eg & _)%byte_two_hex_digits%two_hex_digits_inv
         (x3 & y3 & Eb & _)%byte_two_hex_digits%two_hex_digits_inv.
  unfold rgbHex. by rewrite Er, Eg, Eb.
Qed.

Lemma brightChannel_ends (x y : ascii) :
  is_hex_digit x = true -> is_hex_digit y = true ->
  brightChannel 0 (String x (String y EmptyString)) = IInt 0 /\
  brightChannel 100 (String x (String y EmptyString)) = IInt 255.
Proof.
  intros Hx Hy. split; apply integral_eqb_eq.
  - apply (forallb_hex_pairs
             (fun x y => integral_eqb
                (brightChannel 0 (String x (String y EmptyString))) (IInt 0)));
      [by vm_compute|done|done].
  - apply (forallb_hex_pairs
             (fun x y => integral_eqb
                (brightChannel 100 (String x (String y EmptyString))) (IInt 255)));
      [by vm_compute|done|done].
Qed.

(** X13: on a colour the hex input would accept, the brightness slider at
    0 gives black and at 100 gives white, whatever the colour. *)
Theorem brightness_ends (st : State) :
  test hex_color (selectedColor st) = true ->
  selectedColor (brightnessOnChange 0 st) = "#000000" /\
  selectedColor (brightnessOnChange 100 st) = "#ffffff".
Proof.
  intros (x1 & y1 & x2 & y2 & x3 & y3 & Hs & Hall)%test_hex_color%hex_color_string_inv.
  rewrite !brightnessOnChange_rgbHex, Hs. cbv zeta.
  change (replace_hash (String "#" ?s)) with s.
  cbn [substr String.substring].
  repeat match goal with
         | H : Forall _ (_ :: _) |- _ => inversion H; clear H; subst
         end.
  destruct (brightChannel_ends x1 y1) as [-> ->]; [done..|].
  destruct (brightChannel_ends x2 y2) as [-> ->]; [done..|].
  destruct (brightChannel_ends x3 y3) as [-> ->]; [done..|].
  by vm_compute.
Qed.

Lemma brightness_ends_witness :
  selectedColor (brightnessOnChange 0 (setSelectedColor "#FFA500" mounted))
  = "#000000" /\
  selectedColor (brightnessOnChange 100 (setSelectedColor "#FFA500" mounted))
  = "#ffffff".
Proof.
  apply (brightness_ends (setSelectedColor "#FFA500" mounted)).
  by vm_compute.
Defined.


Lemma is_byte_IInt (v : Z) : 0 <= v <= 255 -> is_byte (IInt v) = true.
Proof. intros Hv. cbn [is_byte]. apply andb_true_intro. split; lia. Qed.



Lemma parseInt16_byte (v : Z) :
  0 <= v <= 255 -> parseInt16 (padStart2 (toString16 (IInt v))) = of_Z v.
Proof.
  intros Hv.
  assert (Hin : In v (Zrange 0 256)).
  { apply in_map_iff. exists (Z.to_nat v). split; [lia|]. apply in_seq. lia. }
  clear Hv. vm_compute in Hin.
  repeat (destruct Hin as [<-|Hin]; [by vm_compute|]). done.
Qed.

(** X15: what the sliders write, they read back: for three channels in
    [0,255], cutting the colour string the sliders build (['#'] removed, two
    characters per channel) and parsing each part in base 16 gives the three
    channels again. *)
Theorem rgbHex_parse_roundtrip (r g b : Z) :
  0 <= r <= 255 -> 0 <= g <= 255 -> 0 <= b <= 255 ->
  let hex := replace_hash (rgbHex (IInt r) (IInt g) (IInt b)) in
  parseInt16 (substr 0 2 hex) = of_Z r /\
  parseInt16 (substr 2 2 hex) = of_Z g /\
  parseInt16 (substr 4 2 hex) = of_Z b.
Proof.
  intros Hr Hg Hb hex. unfold hex.
  destruct (rgbHex_cut (IInt r) (IInt g) (IInt b)) as (-> & -> & ->);
    [by apply is_byte_IInt..|].
  by rewrite !parseInt16_byte.
Qed.

Lemma rgbHex_parse_roundtrip_witness :
  let hex := replace_hash (rgbHex (IInt 255) (IInt 165) (IInt 0)) in
  parseInt16 (substr 0 2 hex) = of_Z 255 /\
  parseInt16 (substr 2 2 hex) = of_Z 165 /\
  parseInt16 (substr 4 2 hex) = of_Z 0.
Proof. apply (rgbHex_parse_roundtrip 255 165 0); lia. Defined.

(** X16: a grey has hue 0: for a colour whose three channels are equal,
    [colorToHue] returns 0 (the difference of the largest and smallest
    channel is 0, and nothing is divided by it). *)
Theorem colorToHue_grey (v : Z) :
  0 <= v <= 255 -> colorToHue (rgbHex (IInt v) (IInt v) (IInt v)) = IInt 0.
Proof.
  intros Hv. apply integral_eqb_eq.
  apply (forallb_Zrange
           (fun v => integral_eqb
              (colorToHue (rgbHex (IInt v) (IInt v) (IInt v))) (IInt 0))
           256 0); [by vm_compute|lia].
Qed.

Lemma colorToHue_grey_witness :
  colorToHue (rgbHex (IInt 128) (IInt 128) (IInt 128)) = IInt 0.
Proof. apply (colorToHue_grey 128). lia. Defined.

(** X17: below 360 the hue slider writes a fully saturated colour: three
    channels in [0,255] of which the largest is 255 and the smallest is 0. *)
Theorem hueToColor_full_chroma (hue : Z) :
  0 <= hue < 360 ->
  exists r g b : Z,
    hueChannels hue = (IInt r, IInt g, IInt b) /\
    hueToColor hue = rgbHex (IInt r) (IInt g) (IInt b) /\
    Z.max r (Z.max g b) = 255 /\ Z.min r (Z.min g b) = 0.
Proof.
  intros Hh.
  pose (P := fun h =>
    match hueChannels h with
    | (IInt r, IInt g, IInt b) =>
        (Z.max r (Z.max g b) =? 255) && (Z.min r (Z.min g b) =? 0)
    | _ => false
    end).
  assert (Hp : P hue = true).
  { apply (forallb_Zrange P 360 0); [by vm_compute|lia]. }
  unfold P in Hp. rewrite hueToColor_rgbHex.
  destruct (hueChannels hue) as [[[| | |r] [| | |g]] [| | |b]]; try done.
  apply andb_prop in Hp as [Hmax%Z.eqb_eq Hmin%Z.eqb_eq].
  by exists r, g, b.
Qed.

Lemma hueToColor_full_chroma_witness :
  exists r g b : Z,
    hueChannels 200 = (IInt r, IInt g, IInt b) /\
    hueToColor 200 = rgbHex (IInt r) (IInt g) (IInt b) /\
    Z.max r (Z.max g b) = 255 /\ Z.min r (Z.min g b) = 0.
Proof. apply (hueToColor_full_chroma 200). lia. Defined.

(** ** More on the export *)

(** Nothing is drawn outside the canvas. *)
Lemma row_outside (s : Z) (ri : nat) (l : list Pixel) (i : nat)
    (cv : Canvas2D) (px py : Z) :
  inside cv px py = false ->
  bitmap (forEach_from (fillCell s ri) i l cv) px py = bitmap cv px py.
Proof.
  revert i cv. induction l as [|p l IH]; intros i cv Hout; [done|].
  cbn [forEach_from]. rewrite IH by by rewrite inside_fillCell.
  by rewrite bitmap_fillCell, Hout.
Qed.

Lemma rows_outside (s : Z) (g : CanvasState) (i : nat) (cv : Canvas2D)
    (px py : Z) :
  inside cv px py = false ->
  bitmap (forEach_from (fillRow s) i g cv) px py = bitmap cv px py.
Proof.
  revert i cv. induction g as [|row g IH]; intros i cv Hout; [done|].
  cbn [forEach_from]. rewrite IH.
  - by apply row_outside.
  - unfold fillRow, forEach. by rewrite inside_row.
Qed.

Lemma exportCanvas_outside (format : Format) (s px py : Z) :
  inside (exportCanvas format s) px py = false ->
  bitmap (exportCanvas format s) px py = None.
Proof.
  destruct format; [done|]. intros Hout. unfold exportCanvas. cbv zeta.
  cbn [bitmap fillRect].
  change (inside (set_fillStyle "#FFFFFF" ?cv) px py) with (inside cv px py).
  change (inside _ px py) with (inside (exportCanvas png s) px py).
  rewrite inside_exportCanvas in Hout |- *. by rewrite Hout.
Qed.

(** X18: for a grid of side [GRID_SIZE] and a scale above 0, the PNG and the
    JPEG export draw the same picture: the same size and the same colour at
    every pixel; every pixel inside the picture is painted (the white
    background of the JPEG is covered everywhere, the PNG has no transparent
    pixel left), and nothing is drawn outside. *)
Theorem export_formats_agree (s : Z) (g : CanvasState) :
  square GRID_SIZE g -> 0 < s ->
  exists cvp cvj,
    downloadImage true png s g = Some cvp /\
    downloadImage true jpeg s g = Some cvj /\
    width cvp = width cvj /\ height cvp = height cvj /\
    forall px py,
      bitmap cvp px py = bitmap cvj px py /\
      (inside cvp px py = true -> is_Some (bitmap cvp px py)) /\
      (inside cvp px py = false -> bitmap cvp px py = None).
Proof.
  intros Hsq Hs.
  destruct (downloadImage_pixels png s g Hsq Hs)
    as (cvp & Hp & Hwp & Hhp & _ & Hpixp).
  destruct (downloadImage_pixels jpeg s g Hsq Hs)
    as (cvj & Hj & Hwj & Hhj & _ & Hpixj).
  exists cvp, cvj. split_and!; [done|done|lia|lia|].
  intros px py.
  assert (Hin : inside cvp px py = true ->
                0 <= px < Z.of_nat GRID_SIZE * s /\
                0 <= py < Z.of_nat GRID_SIZE * s).
  { unfold inside. rewrite Hwp, Hhp.
    intros [[[H1%Z.leb_le H2%Z.ltb_lt]%andb_prop H3%Z.leb_le]%andb_prop
              H4%Z.ltb_lt]%andb_prop. lia. }
  destruct (inside cvp px py) eqn:Hi.
  - destruct (Hin eq_refl) as [Hx Hy]. rewrite Hpixp, Hpixj by done.
    split_and!; [done| |done]. intros _.
    apply (getCell_square GRID_SIZE); [done|..].
    + pose proof (Z.div_pos py s ltac:(lia) Hs).
      assert (py / s < Z.of_nat GRID_SIZE) by (apply Z.div_lt_upper_bound; lia).
      lia.
    + pose proof (Z.div_pos px s ltac:(lia) Hs).
      assert (px / s < Z.of_nat GRID_SIZE) by (apply Z.div_lt_upper_bound; lia).
      lia.
  - assert (Ep : cvp = forEach (fillRow s) g (exportCanvas png s))
      by (rewrite downloadImage_exportCanvas in Hp; congruence).
    assert (Ej : cvj = forEach (fillRow s) g (exportCanvas jpeg s))
      by (rewrite downloadImage_exportCanvas in Hj; congruence).
    clear Hp Hj Hwp Hhp Hwj Hhj Hpixp Hpixj Hin. subst cvp cvj.
    assert (Ho : forall f, inside (exportCanvas f s) px py = false).
    { intros f. rewrite inside_exportCanvas.
      unfold forEach in Hi. rewrite inside_rows in Hi.
      by rewrite inside_exportCanvas in Hi. }
    unfold forEach. rewrite !rows_outside by apply Ho.
    rewrite !exportCanvas_outside by apply Ho. done.
Qed.

Lemma export_formats_agree_witness :
  exists cvp cvj,
    downloadImage true png 5 redCornerCanvas = Some cvp /\
    downloadImage true jpeg 5 redCornerCanvas = Some cvj /\
    width cvp = width cvj /\ height cvp = height cvj /\
    forall px py,
      bitmap cvp px py = bitmap cvj px py /\
      (inside cvp px py = true -> is_Some (bitmap cvp px py)) /\
      (inside cvp px py = false -> bitmap cvp px py = None).
Proof.
  apply (export_formats_agree 5 redCornerCanvas).
  - apply square_redCornerCanvas.
  - lia.
Defined.

Lemma ui_reachable_reachable (st : State) : ui_reachable st -> reachable st.
Proof.
  induction 1 as [|e st _ IH _]; [apply reachable_mounted|].
  by apply reachable_step.
Qed.

Lemma ui_exportScale_range (st : State) :
  ui_reachable st -> 5 <= exportScale st <= 20.
Proof.
  induction 1 as [|e st _ IH Hev]; [by vm_compute|].
  destruct e; cbn [handle state_of ui_event] in *; try exact IH; try exact Hev.
  - unfold handleMouseEnter. by destruct (isDrawing st).
  - unfold handleKeyDown. destruct (ctrlKey || metaKey); [|exact IH].
    destruct (_ && negb shiftKey).
    + unfold undo, jsonCopy. destruct (_ >? _); [|exact IH].
      by destruct (at_index _ _).
    + destruct (_ || _); [|exact IH].
      unfold redo, jsonCopy. destruct (_ <? _); [|exact IH].
      by destruct (at_index _ _).
  - unfold undo, jsonCopy. destruct (_ >? _); [|exact IH].
    by destruct (at_index _ _).
  - unfold redo, jsonCopy. destruct (_ <? _); [|exact IH].
    by destruct (at_index _ _).
  - unfold brightnessOnChange. by destruct (_ <? _)%float.
  - unfold hexOnChange. by destruct (test _ _).
Qed.

(** X19: in every state the rendered controls lead to, the export button
    draws the grid on display in full: a picture of [GRID_SIZE * exportScale]
    pixels a side, between 160 and 640 (the ends of the size slider), whose
    pixel (px, py) has the colour of the cell (py / scale, px / scale). *)
Theorem ui_export_draws_canvas (st : State) :
  ui_reachable st ->
  exists cv,
    downloadImage true (exportFormat st) (exportScale st) (canvas st) = Some cv /\
    width cv = Z.of_nat GRID_SIZE * exportScale st /\
    height cv = width cv /\
    160 <= width cv <= 640 /\
    forall px py,
      0 <= px < width cv -> 0 <= py < height cv ->
      is_Some (bitmap cv px py) /\
      bitmap cv px py
      = getCell (canvas st) (Z.to_nat (py / exportScale st))
          (Z.to_nat (px / exportScale st)).
Proof.
  intros Hu. pose proof (ui_exportScale_range st Hu) as Hs.
  apply ui_reachable_reachable, reachable_well_sized in Hu as [Hsq _].
  destruct (downloadImage_pixels (exportFormat st) (exportScale st) (canvas st)
              Hsq ltac:(lia)) as (cv & Hcv & Hw & Hh & _ & Hpix).
  exists cv. split_and!; [done|done|lia|unfold GRID_SIZE in Hw; lia..|].
  intros px py Hx Hy. rewrite Hpix by lia. split; [|done].
  pose proof (Z.div_pos px (exportScale st) ltac:(lia) ltac:(lia)).
  pose proof (Z.div_pos py (exportScale st) ltac:(lia) ltac:(lia)).
  assert (px / exportScale st < Z.of_nat GRID_SIZE)
    by (apply Z.div_lt_upper_bound; lia).
  assert (py / exportScale st < Z.of_nat GRID_SIZE)
    by (apply Z.div_lt_upper_bound; lia).
  apply (getCell_square GRID_SIZE); [done|lia|lia].
Qed.

Lemma ui_export_draws_canvas_witness :
  exists cv,
    downloadImage true (exportFormat mounted) (exportScale mounted)
      (canvas mounted) = Some cv /\
    width cv = Z.of_nat GRID_SIZE * exportScale mounted /\
    height cv = width cv /\
    160 <= width cv <= 640 /\
    forall px py,
      0 <= px < width cv -> 0 <= py < height cv ->
      is_Some (bitmap cv px py) /\
      bitmap cv px py
      = getCell (canvas mounted) (Z.to_nat (py / exportScale mounted))
          (Z.to_nat (px / exportScale mounted)).
Proof. exact (ui_export_draws_canvas mounted ui_reachable_mounted). Defined.

(** X20: below 300 the hue slider shows the hue it was set to: after the
    slider's [onChange] with a hue in [0,300), the value computed for the
    slider from the selected colour is that hue, and setting the slider to
    this value again gives the same colour. *)
Theorem hue_slider_reads_back (hue : Z) (st : State) :
  0 <= hue < 300 ->
  colorToHue (selectedColor (hueOnChange hue st)) = IInt hue /\
  (forall h', colorToHue (selectedColor (hueOnChange hue st)) = IInt h' ->
     hueOnChange h' (hueOnChange hue st) = hueOnChange hue st).
Proof.
  intros Hh. pose proof (roundtrip_below_300 hue Hh) as Hrt.
  split; [exact Hrt|].
  cbn [hueOnChange selectedColor setSelectedColor]. rewrite Hrt.
  by intros h' [= <-].
Qed.

Lemma hue_slider_reads_back_witness :
  colorToHue (selectedColor (hueOnChange 200 mounted)) = IInt 200 /\
  (forall h', colorToHue (selectedColor (hueOnChange 200 mounted)) = IInt h' ->
     hueOnChange h' (hueOnChange 200 mounted) = hueOnChange 200 mounted).
Proof. apply (hue_slider_reads_back 200 mounted). lia. Defined.


